(** * HamroSwasthya API: appointment token sequencing

    A shallow embedding of the token-feed core of [main.py]
    ([book_appointment], [update_token], [token_status]) together with the
    helper [create_document] of [database.py] and the [Booking] and
    [TokenUpdate] models, over an in-memory model of the MongoDB
    collections the handlers talk to. *)

From stdpp Require Import gmap strings list fin_maps.
From Stdlib Require Import ZArith NArith Lia Ascii String.

Local Open Scope string_scope.
Local Open Scope Z_scope.

(** ** Values and documents *)

(** [datetime.datetime]: the calendar fields, the time of day and the
    offset from UTC in minutes of an aware value. *)
Record datetime := mk_datetime {
  year : Z;
  month : Z;
  day : Z;
  hour : Z;
  minute : Z;
  second : Z;
  microsecond : Z;
  utcoffset : option Z
}.

#[global] Instance datetime_eq_dec : EqDecision datetime.
Proof. solve_decision. Defined.

(** Bounds that Python enforces on the calendar fields of every datetime
    (the day is further bounded by the length of its month). *)
Definition datetime_ok (d : datetime) : bool :=
  (1 <=? year d) && (year d <=? 9999) &&
  (1 <=? month d) && (month d <=? 12) &&
  (1 <=? day d) && (day d <=? 31).

(** A [bson.ObjectId] is a 12-byte value; it is kept as the number it
    encodes. *)
Record ObjectId := mk_oid { oid_binary : N }.

#[global] Instance ObjectId_eq_dec : EqDecision ObjectId.
Proof. solve_decision. Defined.

(** The values that occur in the documents of this program. *)
Inductive value :=
  | VNone
  | VInt (n : Z)
  | VStr (s : string)
  | VId (i : ObjectId)
  | VDate (d : datetime).

#[global] Instance value_eq_dec : EqDecision value.
Proof. solve_decision. Defined.

(** A Python [dict] with string keys (a request body, a filter, a [$set]
    patch, a JSON response). *)
Abbreviation dict := (gmap string value).

(** A document as a collection holds it: MongoDB gives every stored
    document an [_id], here always a generated ObjectId. *)
Record stored := mk_stored {
  doc_id : ObjectId;
  doc_fields : dict
}.

(** The dict a driver call hands back for a stored document. *)
Definition to_dict (d : stored) : dict :=
  <["_id" := VId (doc_id d)]> (doc_fields d).

(** A collection keeps its documents in natural (insertion) order. *)
Abbreviation collection := (list stored).

(** ** Strings: hexadecimal and decimal digits *)

Definition is_hex (c : ascii) : bool :=
  let n := nat_of_ascii c in
  ((48 <=? n) && (n <=? 57) || (65 <=? n) && (n <=? 70) ||
   (97 <=? n) && (n <=? 102))%nat.

Fixpoint all_hex (s : string) : bool :=
  match s with
  | EmptyString => true
  | String c s' => is_hex c && all_hex s'
  end.

(** Modelled from the spec: the [bson] package is not part of the
    repository; [ObjectId(s)] on a [str] succeeds exactly on "the store's
    native identifier format", a string of 24 hexadecimal characters. *)
Definition ObjectId_is_valid (s : string) : bool :=
  (String.length s =? 24)%nat && all_hex s.

Definition hex_digit (n : N) : ascii :=
  if (n <? 10)%N then ascii_of_N (48 + n) else ascii_of_N (87 + n).

Fixpoint hex_of (digits : nat) (n : N) (acc : string) : string :=
  match digits with
  | O => acc
  | S k => hex_of k (n / 16)%N (String (hex_digit (n mod 16)%N) acc)
  end.

(** [str(oid)]: the 24 lower-case hexadecimal digits of the 12 bytes. *)
Definition ObjectId_str (i : ObjectId) : string :=
  hex_of 24 (oid_binary i) "".

Definition digit (n : Z) : ascii := ascii_of_N (Z.to_N (48 + n mod 10)).

(** [%m] and [%d]: two digits, zero padded. *)
Definition pad2 (n : Z) : string :=
  String (digit (n / 10)) (String (digit n) "").

(** [%Y]: the year with century, in four digits (0001 to 9999). *)
Definition pad4 (n : Z) : string :=
  String (digit (n / 1000)) (String (digit (n / 100)) (pad2 n)).

(** [d.strftime('%Y-%m-%d')] *)
Definition strftime_Ymd (d : datetime) : string :=
  pad4 (year d) +:+ "-" +:+ pad2 (month d) +:+ "-" +:+ pad2 (day d).

(** ** schemas.py *)

Inductive booking_status := booked | cancelled | completed.

Definition booking_status_str (s : booking_status) : string :=
  match s with
  | booked => "booked"
  | cancelled => "cancelled"
  | completed => "completed"
  end.

(** [class Booking(BaseModel)] *)
Record Booking := mk_Booking {
  user_id : string;
  doctor_id : string;
  date : datetime;
  token : option Z;
  status : booking_status
}.

(** [b.model_dump()] *)
Definition model_dump (b : Booking) : dict :=
  <["user_id" := VStr (user_id b)]>
  (<["doctor_id" := VStr (doctor_id b)]>
  (<["date" := VDate (date b)]>
  (<["token" := match token b with Some n => VInt n | None => VNone end]>
  (<["status" := VStr (booking_status_str (status b))]> ∅)))).

(** [class TokenUpdate(BaseModel)] of main.py *)
Record TokenUpdate := mk_TokenUpdate {
  tu_doctor_id : string;
  tu_date : string;
  tu_current_token : Z
}.

(** ** The store and the effects of a request *)

(** What a handler runs against: the module-level [db] of database.py
    ([None] when DATABASE_URL or DATABASE_NAME is not set, otherwise the
    collections by name), the source of generated ObjectIds, and the
    connection to the server: [outage = Some k] says that [k] more driver
    calls go through and every later one raises; [None] is a connection
    that stays up. *)
Record world := mk_world {
  db : option (gmap string collection);
  next_oid : N;
  outage : option nat
}.

(** The exceptions the handlers can end in. *)
Inductive exn :=
  | HTTPException (status_code : nat) (detail : string)
  | TypeError (msg : string)
  | Exception (msg : string)
  | PyMongoError (msg : string).

(** A computation reads and writes the world and either raises or
    returns. *)
Definition M (A : Type) : Type := world → (exn + A) * world.

Definition ret {A} (a : A) : M A := λ w, (inr a, w).
Definition raise {A} (e : exn) : M A := λ w, (inl e, w).
Definition bind {A B} (m : M A) (k : A → M B) : M B :=
  λ w, match m w with
       | (inr a, w') => k a w'
       | (inl e, w') => (inl e, w')
       end.

Declare Scope py_scope.
Delimit Scope py_scope with py.
Notation "x <- m ;; k" := (bind m (λ x, k))
  (at level 100, m at next level, right associativity) : py_scope.
Notation "m ;;; k" := (bind m (λ _, k))
  (at level 100, right associativity) : py_scope.
Local Open Scope py_scope.

(** A filter of equality conditions selects the documents that carry each
    of its fields with that value. *)
Definition doc_matches (flt : dict) (d : stored) : bool :=
  bool_decide (map_Forall (λ k v, to_dict d !! k = Some v) flt).

Fixpoint first_match (flt : dict) (c : collection) : option stored :=
  match c with
  | [] => None
  | d :: c' => if doc_matches flt d then Some d else first_match flt c'
  end.

(** [$set] on the first matching document, in place. *)
Fixpoint set_first (flt patch : dict) (c : collection) : option collection :=
  match c with
  | [] => None
  | d :: c' =>
      if doc_matches flt d
      then Some (mk_stored (doc_id d) (patch ∪ doc_fields d) :: c')
      else (d ::.) <$> set_first flt patch c'
  end.

(** [db[name]]: subscripting [None] is a TypeError; a collection that was
    never written to is empty. *)
Definition get_collection (name : string) : M collection :=
  λ w, match db w with
       | None => (inl (TypeError "'NoneType' object is not subscriptable"), w)
       | Some cs => (inr (default [] (cs !! name)), w)
       end.

Definition put_collection (name : string) (c : collection) : M unit :=
  λ w, match db w with
       | None => (inl (TypeError "'NoneType' object is not subscriptable"), w)
       | Some cs => (inr tt, mk_world (Some (<[name := c]> cs)) (next_oid w) (outage w))
       end.

(** One round trip to the server: raises once the connection is lost. *)
Definition round_trip : M unit :=
  λ w, match outage w with
       | None => (inr tt, w)
       | Some O => (inl (PyMongoError "connection lost"), w)
       | Some (S k) => (inr tt, mk_world (db w) (next_oid w) (Some k))
       end.

Definition fresh_oid : M ObjectId :=
  λ w, (inr (mk_oid (next_oid w)),
        mk_world (db w) (next_oid w + 1)%N (outage w)).

(** [db[name].find_one(flt)] *)
Definition coll_find_one (name : string) (flt : dict) : M (option dict) :=
  c <- get_collection name;;
  round_trip;;;
  ret (to_dict <$> first_match flt c).

(** [db[name].update_one(flt, {"$set": patch}, upsert=True)]: the first
    match is patched; without a match a document made of the filter's
    fields and the patch is inserted. *)
Definition coll_update_one_upsert (name : string) (flt patch : dict) : M unit :=
  c <- get_collection name;;
  round_trip;;;
  match set_first flt patch c with
  | Some c' => put_collection name c'
  | None =>
      i <- fresh_oid;;
      put_collection name (c ++ [mk_stored i (patch ∪ flt)])
  end.

(** [db[name].insert_one(data)], returning [inserted_id]. *)
Definition coll_insert_one (name : string) (data : dict) : M ObjectId :=
  c <- get_collection name;;
  round_trip;;;
  i <- fresh_oid;;
  put_collection name (c ++ [mk_stored i data]);;;
  ret i.

(** ** database.py *)

Definition _ensure_db : M unit :=
  λ w, match db w with
       | None => (inl (Exception "Database not available. Check DATABASE_URL and DATABASE_NAME environment variables."), w)
       | Some _ => (inr tt, w)
       end.

(** [create_document(collection_name, data)] for a [dict], at time [now]. *)
Definition create_document (now : datetime) (collection_name : string)
    (data : dict) : M string :=
  _ensure_db;;;
  let data_dict := data in
  let data_dict := <["created_at" := VDate now]> data_dict in
  let data_dict := <["updated_at" := VDate now]> data_dict in
  inserted_id <- coll_insert_one collection_name data_dict;;
  ret (ObjectId_str inserted_id).

(** ** main.py *)

(** [f"tokenfeed_{doctor_id}_{date_key}"] *)
Definition feed_name_of (doctor_id date_key : string) : string :=
  "tokenfeed_" +:+ doctor_id +:+ "_" +:+ date_key.

(** Truth value of a dict: empty is false. *)
Definition dict_truthy (d : dict) : bool := negb (bool_decide (d = ∅)).

(** [@app.post("/bookings")] *)
Definition book_appointment (now : datetime) (b : Booking) : M dict :=
  (if ObjectId_is_valid (doctor_id b) then ret tt
   else raise (HTTPException 400 "Invalid doctor id"));;;
  let date_key := strftime_Ymd (date b) in
  let feed_name := feed_name_of (doctor_id b) date_key in
  feed <- coll_find_one "tokenfeed" {["_key" := VStr feed_name]};;
  next_token <-
    match feed with
    | Some f =>
        if dict_truthy f then
          match f !! "last_token" with
          | None => ret (0 + 1)
          | Some (VInt n) => ret (n + 1)
          | Some _ => raise (TypeError "unsupported operand type(s) for +")
          end
        else ret 1
    | None => ret 1
    end;;
  coll_update_one_upsert "tokenfeed" {["_key" := VStr feed_name]}
    (<["_key" := VStr feed_name]>
     (<["doctor_id" := VStr (doctor_id b)]>
     (<["date" := VStr date_key]>
     (<["last_token" := VInt next_token]> ∅))));;;
  let data := model_dump b in
  let data := <["token" := VInt next_token]> data in
  _id <- create_document now "booking" data;;
  ret (<["id" := VStr _id]> (<["token" := VInt next_token]> ∅)).

(** [@app.post("/token/update")] *)
Definition update_token (t : TokenUpdate) : M dict :=
  let feed_name := feed_name_of (tu_doctor_id t) (tu_date t) in
  coll_update_one_upsert "tokenfeed" {["_key" := VStr feed_name]}
    (<["_key" := VStr feed_name]>
     (<["doctor_id" := VStr (tu_doctor_id t)]>
     (<["date" := VStr (tu_date t)]>
     (<["current_token" := VInt (tu_current_token t)]> ∅))));;;
  ret {["status" := VStr "ok"]}.

(** [@app.get("/token/status")]: a document that was found carries its
    ObjectId under [_id], which is true and is replaced by its string. *)
Definition token_status (doctor_id date : string) : M dict :=
  let feed_name := feed_name_of doctor_id date in
  found <- coll_find_one "tokenfeed" {["_key" := VStr feed_name]};;
  let feed := match found with
              | Some f => if dict_truthy f then f else ∅
              | None => ∅
              end in
  ret match feed !! "_id" with
      | Some (VId i) => <["_id" := VStr (ObjectId_str i)]> feed
      | _ => feed
      end.

(** What the framework answers for an endpoint: the body with status 200,
    the status and detail of an [HTTPException], and 500 for any other
    exception. *)
Inductive http_response :=
  | Response (status : nat) (body : dict)
  | ErrorResponse (status : nat) (detail : string).

Definition error_response (e : exn) : http_response :=
  match e with
  | HTTPException c d => ErrorResponse c d
  | _ => ErrorResponse 500 "Internal Server Error"
  end.

Definition serve (h : M dict) (w : world) : http_response * world :=
  match h w with
  | (inr body, w') => (Response 200 body, w')
  | (inl e, w') => (error_response e, w')
  end.

(** ** Requests processed one after another *)

Inductive request :=
  | PostBookings (now : datetime) (b : Booking)
  | PostTokenUpdate (t : TokenUpdate)
  | GetTokenStatus (doctor_id date : string).

Definition handle (r : request) : M dict :=
  match r with
  | PostBookings now b => book_appointment now b
  | PostTokenUpdate t => update_token t
  | GetTokenStatus d k => token_status d k
  end.

Fixpoint run (rs : list request) (w : world) : list http_response * world :=
  match rs with
  | [] => ([], w)
  | r :: rs' =>
      let '(resp, w1) := serve (handle r) w in
      let '(resps, w2) := run rs' w1 in
      (resp :: resps, w2)
  end.

(** ** Observations on the store *)

(** The documents of a collection of the configured database. *)
Definition docs_of (name : string) (w : world) : collection :=
  match db w with
  | Some cs => default [] (cs !! name)
  | None => []
  end.

(** The token feed a key selects: the document [find_one] returns for it. *)
Definition feed_at (w : world) (feed_name : string) : option stored :=
  first_match {["_key" := VStr feed_name]} (docs_of "tokenfeed" w).

Definition int_field (field : string) (d : stored) : option Z :=
  match doc_fields d !! field with
  | Some (VInt n) => Some n
  | _ => None
  end.

(** The stored [last_token] of a key, if its feed has one. *)
Definition last_token_at (w : world) (feed_name : string) : option Z :=
  feed_at w feed_name ≫= int_field "last_token".

Definition current_token_at (w : world) (feed_name : string) : option Z :=
  feed_at w feed_name ≫= int_field "current_token".

(** The token of a 200 response of POST /bookings. *)
Definition response_token (r : http_response) : option Z :=
  match r with
  | Response 200 body =>
      match body !! "token" with
      | Some (VInt n) => Some n
      | _ => None
      end
  | _ => None
  end.

(** The key a booking draws its token from. *)
Definition booking_key (b : Booking) : string :=
  feed_name_of (doctor_id b) (strftime_Ymd (date b)).

(** ** Requests in flight at the same time

    FastAPI runs a [def] endpoint in a worker thread, so two bookings can
    be in flight together.  Between two driver calls of one request the
    calls of another can reach the server; each driver call on its own is
    atomic.  The three stretches of [book_appointment] that end in a
    driver call are the steps of a thread. *)

(** Lines 238 to 248: the check, [find_one] and the choice of
    [next_token]. *)
Definition book_read (b : Booking) : M Z :=
  (if ObjectId_is_valid (doctor_id b) then ret tt
   else raise (HTTPException 400 "Invalid doctor id"));;;
  let feed_name := feed_name_of (doctor_id b) (strftime_Ymd (date b)) in
  feed <- coll_find_one "tokenfeed" {["_key" := VStr feed_name]};;
  match feed with
  | Some f =>
      if dict_truthy f then
        match f !! "last_token" with
        | None => ret (0 + 1)
        | Some (VInt n) => ret (n + 1)
        | Some _ => raise (TypeError "unsupported operand type(s) for +")
        end
      else ret 1
  | None => ret 1
  end.

(** Lines 249 to 253: [update_one] with the token chosen before. *)
Definition book_write (b : Booking) (next_token : Z) : M unit :=
  let date_key := strftime_Ymd (date b) in
  let feed_name := feed_name_of (doctor_id b) date_key in
  coll_update_one_upsert "tokenfeed" {["_key" := VStr feed_name]}
    (<["_key" := VStr feed_name]>
     (<["doctor_id" := VStr (doctor_id b)]>
     (<["date" := VStr date_key]>
     (<["last_token" := VInt next_token]> ∅)))).

(** Lines 255 to 258: the booking record and the answer. *)
Definition book_insert (now : datetime) (b : Booking) (next_token : Z) : M dict :=
  let data := model_dump b in
  let data := <["token" := VInt next_token]> data in
  _id <- create_document now "booking" data;;
  ret (<["id" := VStr _id]> (<["token" := VInt next_token]> ∅)).

Inductive thread :=
  | Start (now : datetime) (b : Booking)
  | HaveToken (now : datetime) (b : Booking) (next_token : Z)
  | FeedWritten (now : datetime) (b : Booking) (next_token : Z)
  | Finished (r : http_response).

Definition thread_step (t : thread) (w : world) : thread * world :=
  match t with
  | Start now b =>
      match book_read b w with
      | (inr n, w') => (HaveToken now b n, w')
      | (inl e, w') => (Finished (error_response e), w')
      end
  | HaveToken now b n =>
      match book_write b n w with
      | (inr _, w') => (FeedWritten now b n, w')
      | (inl e, w') => (Finished (error_response e), w')
      end
  | FeedWritten now b n =>
      match book_insert now b n w with
      | (inr body, w') => (Finished (Response 200 body), w')
      | (inl e, w') => (Finished (error_response e), w')
      end
  | Finished r => (Finished r, w)
  end.

(** A schedule names, step by step, the thread that moves next. *)
Fixpoint run_schedule (sched : list nat) (ts : list thread) (w : world)
    : list thread * world :=
  match sched with
  | [] => (ts, w)
  | i :: sched' =>
      match ts !! i with
      | Some t =>
          let '(t', w') := thread_step t w in
          run_schedule sched' (<[i := t']> ts) w'
      | None => run_schedule sched' ts w
      end
  end.

Definition thread_token (t : thread) : option Z :=
  match t with
  | Finished r => response_token r
  | _ => None
  end.

(** ** What a booking and a pointer update do to the store *)

(** The token lines 247 and 248 choose in a store: 1 without a feed or
    without a [last_token], the stored integer plus one otherwise, and
    nothing where the stored value is not an integer (the addition
    raises). *)
Definition next_token_for (w : world) (feed_name : string) : option Z :=
  match feed_at w feed_name with
  | None => Some 1
  | Some d =>
      match doc_fields d !! "last_token" with
      | None => Some 1
      | Some (VInt n) => Some (n + 1)
      | Some _ => None
      end
  end.

(** The store is configured and the connection stays up. *)
Definition up (w : world) : Prop := is_Some (db w) ∧ outage w = None.

(** The patch [book_appointment] sends with [$set]. *)
Definition booking_patch (b : Booking) (next_token : Z) : dict :=
  <["_key" := VStr (booking_key b)]>
  (<["doctor_id" := VStr (doctor_id b)]>
  (<["date" := VStr (strftime_Ymd (date b))]>
  (<["last_token" := VInt next_token]> ∅))).

(** The record [book_appointment] hands to [insert_one]. *)
Definition booking_record (now : datetime) (b : Booking) (next_token : Z) : dict :=
  <["updated_at" := VDate now]>
  (<["created_at" := VDate now]>
  (<["token" := VInt next_token]> (model_dump b))).

(** ** The effect of one driver call on the world *)

(** A driver call goes through when the database is configured and the
    connection has not been lost. *)
Definition call_ok (w : world) : bool :=
  match db w, outage w with
  | Some _, Some O => false
  | Some _, _ => true
  | None, _ => false
  end.

(** What a driver call on [db[name]] raises when it does not go through. *)
Definition call_exn (w : world) : exn :=
  match db w with
  | None => TypeError "'NoneType' object is not subscriptable"
  | Some _ => PyMongoError "connection lost"
  end.

(** One call fewer is left before the outage. *)
Definition tick_world (w : world) : world :=
  mk_world (db w) (next_oid w) (pred <$> outage w).

Definition bump_oid (w : world) : world :=
  mk_world (db w) (next_oid w + 1)%N (outage w).

Definition set_docs (name : string) (c : collection) (w : world) : world :=
  mk_world (<[name := c]> <$> db w) (next_oid w) (outage w).

(** The world after the upsert of [book_appointment] went through. *)
Definition write_feed (b : Booking) (next_token : Z) (w : world) : world :=
  let flt : dict := {["_key" := VStr (booking_key b)]} in
  match set_first flt (booking_patch b next_token) (docs_of "tokenfeed" w) with
  | Some c' => set_docs "tokenfeed" c' (tick_world w)
  | None =>
      set_docs "tokenfeed"
        (docs_of "tokenfeed" w
           ++ [mk_stored (mk_oid (next_oid w)) (booking_patch b next_token ∪ flt)])
        (bump_oid (tick_world w))
  end.

(** The world after the insert of [book_appointment] went through. *)
Definition insert_booking (now : datetime) (b : Booking) (next_token : Z)
    (w : world) : world :=
  set_docs "booking"
    (docs_of "booking" w
       ++ [mk_stored (mk_oid (next_oid w)) (booking_record now b next_token)])
    (bump_oid (tick_world w)).

(** The answer of a booking that went through in world [w]. *)
Definition booking_answer (next_token : Z) (w : world) : dict :=
  <["id" := VStr (ObjectId_str (mk_oid (next_oid w)))]>
  (<["token" := VInt next_token]> ∅).

(** The key [update_token] writes to. *)
Definition update_key (t : TokenUpdate) : string :=
  feed_name_of (tu_doctor_id t) (tu_date t).

(** The patch [update_token] sends with [$set]. *)
Definition update_patch (t : TokenUpdate) : dict :=
  <["_key" := VStr (update_key t)]>
  (<["doctor_id" := VStr (tu_doctor_id t)]>
  (<["date" := VStr (tu_date t)]>
  (<["current_token" := VInt (tu_current_token t)]> ∅))).

(** The world after the upsert of [update_token] went through. *)
Definition set_current (t : TokenUpdate) (w : world) : world :=
  let flt : dict := {["_key" := VStr (update_key t)]} in
  match set_first flt (update_patch t) (docs_of "tokenfeed" w) with
  | Some c' => set_docs "tokenfeed" c' (tick_world w)
  | None =>
      set_docs "tokenfeed"
        (docs_of "tokenfeed" w
           ++ [mk_stored (mk_oid (next_oid w)) (update_patch t ∪ flt)])
        (bump_oid (tick_world w))
  end.

(** The body [token_status] answers with for a key. *)
Definition status_body (w : world) (feed_name : string) : dict :=
  match feed_at w feed_name with
  | Some d => <["_id" := VStr (ObjectId_str (doc_id d))]> (to_dict d)
  | None => ∅
  end.


(** ** Sample data *)

Definition june1_0900 : datetime := mk_datetime 2024 6 1 9 0 0 0 None.
Definition june1_1730 : datetime := mk_datetime 2024 6 1 17 30 0 0 None.
Definition june2_0900 : datetime := mk_datetime 2024 6 2 9 0 0 0 None.
Definition clock0 : datetime := mk_datetime 2024 5 30 12 0 0 0 (Some 0).

Definition doctor1 : string := "665f1c2ab3d4e5f6a7b8c9d0".

Definition booking1 : Booking := mk_Booking "u1" doctor1 june1_0900 None booked.
Definition booking2 : Booking := mk_Booking "u2" doctor1 june1_1730 (Some 77) booked.
Definition booking3 : Booking := mk_Booking "u3" doctor1 june2_0900 None booked.
Definition booking4 : Booking := mk_Booking "u4" doctor1 june1_1730 None booked.
Definition booking_bad : Booking := mk_Booking "u1" "D1" june1_0900 None booked.

(** A configured database with no collection yet and a live connection. *)
Definition empty_world : world := mk_world (Some ∅) 0 None.

(** ** Feeds and traffic *)

(** The number of feeds a collection holds for a key. *)
Definition feed_count (k : string) (c : collection) : nat :=
  List.length (filter (λ d, doc_fields d !! "_key" = Some (VStr k)) c).

(** No key has two feeds. *)
Definition feeds_unique (w : world) : Prop :=
  ∀ k, (feed_count k (docs_of "tokenfeed" w) ≤ 1)%nat.

(** A booking request that passes the doctor-id check and draws its token
    from the feed named [k]. *)
Definition draws_from (k : string) (r : request) : bool :=
  match r with
  | PostBookings _ b =>
      ObjectId_is_valid (doctor_id b) && bool_decide (booking_key b = k)
  | _ => false
  end.

(** The answers, in call order, to the requests that draw from [k]. *)
Fixpoint tokens_drawn (k : string) (rs : list request)
    (resps : list http_response) : list (option Z) :=
  match rs, resps with
  | r :: rs', resp :: resps' =>
      if draws_from k r
      then response_token resp :: tokens_drawn k rs' resps'
      else tokens_drawn k rs' resps'
  | _, _ => []
  end.

Definition is_status_query (r : request) : bool :=
  match r with
  | GetTokenStatus _ _ => true
  | _ => false
  end.

(** The answers to the requests that are not status queries. *)
Fixpoint other_answers (rs : list request) (resps : list http_response)
    : list http_response :=
  match rs, resps with
  | r :: rs', resp :: resps' =>
      if is_status_query r then other_answers rs' resps'
      else resp :: other_answers rs' resps'
  | _, _ => []
  end.

(** ** More of database.py and main.py: users, doctors, karma *)

Definition hex_value (c : ascii) : option N :=
  let n := N_of_ascii c in
  if ((48 <=? n) && (n <=? 57))%N then Some (n - 48)%N
  else if ((65 <=? n) && (n <=? 70))%N then Some (n - 55)%N
  else if ((97 <=? n) && (n <=? 102))%N then Some (n - 87)%N
  else None.

Fixpoint hex_parse (s : string) (acc : N) : option N :=
  match s with
  | EmptyString => Some acc
  | String c s' =>
      match hex_value c with
      | Some v => hex_parse s' (16 * acc + v)%N
      | None => None
      end
  end.

(** Modelled from the spec: [ObjectId(s)] of the [bson] package, which is
    not part of the repository, on a string in "the store's native
    identifier format": the 12 bytes that its 24 hexadecimal characters
    spell, in either case; any other string raises. *)
Definition ObjectId_of_str (s : string) : option ObjectId :=
  if ObjectId_is_valid s then mk_oid <$> hex_parse s 0 else None.

(** [d["_id"] = str(d["_id"])] on a document the driver handed back. *)
Definition stringify_id (f : dict) : dict :=
  match f !! "_id" with
  | Some (VId i) => <["_id" := VStr (ObjectId_str i)]> f
  | _ => f
  end.

(** An equality condition of a query: [None] selects a field that is null
    or missing, any other value a field with that value. *)
Definition field_matches (f : dict) (k : string) (v : value) : bool :=
  match v with
  | VNone => bool_decide (f !! k = None ∨ f !! k = Some VNone)
  | _ => bool_decide (f !! k = Some v)
  end.

Definition query_matches (flt : dict) (d : stored) : bool :=
  bool_decide (map_Forall (λ k v, field_matches (to_dict d) k v = true) flt).

(** Truth value of a non-negative [int] and of an optional [str]. *)
Definition int_truthy (n : N) : bool := negb (n =? 0)%N.

Definition str_truthy (s : option string) : bool :=
  match s with
  | Some s => negb (bool_decide (s = ""))
  | None => false
  end.

(** [list(db[name].find(flt).limit(limit))]: the matching documents in
    natural order; limit 0 is no limit.  The limit is taken non-negative:
    the driver turns a negative limit into a request for a single batch,
    which is not modelled.  The cursor is read in one call. *)
Definition coll_find (name : string) (flt : dict) (limit : N) : M (list dict) :=
  c <- get_collection name;;
  round_trip;;;
  let found := to_dict <$> filter (λ d, query_matches flt d = true) c in
  ret (if int_truthy limit then take (N.to_nat limit) found else found).

(** [get_documents(collection_name, filter_dict, limit)], for a limit that
    is not negative. *)
Definition get_documents (collection_name : string) (filter_dict : option dict)
    (limit : option N) : M (list dict) :=
  _ensure_db;;;
  let flt := match filter_dict with
             | Some f => if dict_truthy f then f else ∅
             | None => ∅
             end in
  let lim := match limit with
             | Some n => if int_truthy n then n else 0%N
             | None => 0%N
             end in
  docs <- coll_find collection_name flt lim;;
  ret (stringify_id <$> docs).

(** [get_document_by_id(collection_name, doc_id)] *)
Definition get_document_by_id (collection_name doc_id : string)
    : M (option dict) :=
  _ensure_db;;;
  match ObjectId_of_str doc_id with
  | None => ret None
  | Some obj_id =>
      d <- coll_find_one collection_name {["_id" := VId obj_id]};;
      ret (match d with
           | Some f => if dict_truthy f then Some (stringify_id f) else Some f
           | None => None
           end)
  end.

(** Whether BSON can hold a Python [int]: eight bytes, signed. *)
Definition int64_ok (n : Z) : bool := (- 2 ^ 63 <=? n) && (n <? 2 ^ 63).

(** [db[name].update_one({"_id": i}, {"$inc": {field: amount}})],
    returning [matched_count].  The amount must fit BSON; the server
    refuses a field that holds no number and a sum that leaves the eight
    bytes; a missing field is set to the amount. *)
Definition coll_inc_by_id (name : string) (i : ObjectId) (field : string)
    (amount : Z) : M nat :=
  c <- get_collection name;;
  (if int64_ok amount then ret tt
   else raise (Exception "MongoDB can only handle up to 8-byte ints"));;;
  round_trip;;;
  let flt : dict := {["_id" := VId i]} in
  match first_match flt c with
  | None => ret 0%nat
  | Some d =>
      match doc_fields d !! field with
      | None =>
          put_collection name
            (default c (set_first flt {[field := VInt amount]} c));;;
          ret 1%nat
      | Some (VInt n) =>
          if int64_ok (n + amount) then
            put_collection name
              (default c (set_first flt {[field := VInt (n + amount)]} c));;;
            ret 1%nat
          else raise (PyMongoError "Failed to apply $inc operations to current value")
      | Some _ =>
          raise (PyMongoError "Cannot apply $inc to a value of non-numeric type")
      end
  end.

Definition opt_str (o : option string) : value :=
  match o with
  | Some s => VStr s
  | None => VNone
  end.

Definition opt_int (o : option Z) : value :=
  match o with
  | Some n => VInt n
  | None => VNone
  end.

(** [class AppUser(BaseModel)] *)
Record AppUser := mk_AppUser {
  au_name : string;
  au_email : option string;
  au_phone : option string;
  au_location : option string;
  au_age : option Z;
  au_blood_group : option string;
  au_karma_points : Z
}.

Definition AppUser_dump (u : AppUser) : dict :=
  <["name" := VStr (au_name u)]>
  (<["email" := opt_str (au_email u)]>
  (<["phone" := opt_str (au_phone u)]>
  (<["location" := opt_str (au_location u)]>
  (<["age" := opt_int (au_age u)]>
  (<["blood_group" := opt_str (au_blood_group u)]>
  (<["karma_points" := VInt (au_karma_points u)]> ∅)))))).

(** [class Doctor(BaseModel)] *)
Record Doctor := mk_Doctor {
  dr_name : string;
  dr_department : string;
  dr_hospital_id : string;
  dr_experience_years : option Z
}.

Definition Doctor_dump (d : Doctor) : dict :=
  <["name" := VStr (dr_name d)]>
  (<["department" := VStr (dr_department d)]>
  (<["hospital_id" := VStr (dr_hospital_id d)]>
  (<["experience_years" := opt_int (dr_experience_years d)]> ∅))).

(** [class KarmaAward(BaseModel)] of main.py *)
Record KarmaAward := mk_KarmaAward {
  ka_user_id : string;
  ka_points : Z
}.

(** [@app.post("/users")] *)
Definition create_user (now : datetime) (user : AppUser) : M dict :=
  user_id <- create_document now "appuser" (AppUser_dump user);;
  ret {["id" := VStr user_id]}.

(** [@app.get("/users")] *)
Definition list_users (city blood_group : option string) : M (list dict) :=
  let filt : dict := ∅ in
  let filt := if str_truthy city
              then <["location" := opt_str city]> filt else filt in
  let filt := if str_truthy blood_group
              then <["blood_group" := opt_str blood_group]> filt else filt in
  get_documents "appuser" (Some filt) None.

(** [@app.post("/blood/karma")] *)
Definition award_karma (payload : KarmaAward) : M dict :=
  obj_id <- match ObjectId_of_str (ka_user_id payload) with
            | Some i => ret i
            | None => raise (HTTPException 400 "Invalid user id")
            end;;
  matched_count <- coll_inc_by_id "appuser" obj_id "karma_points"
                     (ka_points payload);;
  (if (matched_count =? 0)%nat
   then raise (HTTPException 404 "User not found") else ret tt);;;
  ret {["status" := VStr "ok"]}.

(** [@app.post("/doctors")] *)
Definition add_doctor (now : datetime) (d : Doctor) : M dict :=
  _id <- create_document now "doctor" (Doctor_dump d);;
  ret {["id" := VStr _id]}.

(** [@app.get("/doctors")] *)
Definition list_doctors (hospital_id department : option string)
    : M (list dict) :=
  let filt : dict := ∅ in
  let filt := if str_truthy hospital_id
              then <["hospital_id" := opt_str hospital_id]> filt else filt in
  let filt := if str_truthy department
              then <["department" := opt_str department]> filt else filt in
  get_documents "doctor" (Some filt) None.

(** [class BloodRequest(BaseModel)] *)
Inductive urgency_level := low | medium | high.
Inductive request_status := open | matched | fulfilled | request_cancelled.

Definition urgency_str (x : urgency_level) : string :=
  match x with
  | low => "low"
  | medium => "medium"
  | high => "high"
  end.

Definition request_status_str (x : request_status) : string :=
  match x with
  | open => "open"
  | matched => "matched"
  | fulfilled => "fulfilled"
  | request_cancelled => "cancelled"
  end.

Record BloodRequest := mk_BloodRequest {
  br_requester_id : string;
  br_location : string;
  br_blood_group : string;
  br_units_needed : Z;
  br_urgency : urgency_level;
  br_note : option string;
  br_status : request_status
}.

Definition BloodRequest_dump (r : BloodRequest) : dict :=
  <["requester_id" := VStr (br_requester_id r)]>
  (<["location" := VStr (br_location r)]>
  (<["blood_group" := VStr (br_blood_group r)]>
  (<["units_needed" := VInt (br_units_needed r)]>
  (<["urgency" := VStr (urgency_str (br_urgency r))]>
  (<["note" := opt_str (br_note r)]>
  (<["status" := VStr (request_status_str (br_status r))]> ∅)))))).

(** [@app.post("/blood/requests")] *)
Definition create_blood_request (now : datetime) (req : BloodRequest) : M dict :=
  _id <- create_document now "bloodrequest" (BloodRequest_dump req);;
  ret {["id" := VStr _id]}.

(** [@app.get("/blood/requests")] *)
Definition list_blood_requests (city blood_group status : option string)
    : M (list dict) :=
  let filt : dict := ∅ in
  let filt := if str_truthy city
              then <["location" := opt_str city]> filt else filt in
  let filt := if str_truthy blood_group
              then <["blood_group" := opt_str blood_group]> filt else filt in
  let filt := if str_truthy status
              then <["status" := opt_str status]> filt else filt in
  get_documents "bloodrequest" (Some filt) None.

(** ** Observations on users and ids *)

(** The document of a collection with a given id. *)
Definition doc_by_id (name : string) (i : ObjectId) (w : world) : option stored :=
  first_match {["_id" := VId i]} (docs_of name w).

(** The karma a user holds. *)
Definition karma_of (w : world) (i : ObjectId) : option Z :=
  doc_by_id "appuser" i w ≫= int_field "karma_points".

(** Every stored id was handed out by the id source, and no collection
    holds an id twice. *)
Definition ids_sound (w : world) : Prop :=
  ∀ name,
    Forall (λ d, (oid_binary (doc_id d) < next_oid w)%N) (docs_of name w)
    ∧ NoDup (doc_id <$> docs_of name w).

(** A filter on an optional string parameter of a listing endpoint: a
    document passes when the parameter is missing or empty, or when its
    field holds the parameter. *)
Definition has_str (field : string) (want : option string) (d : stored) : bool :=
  if str_truthy want
  then bool_decide (doc_fields d !! field = Some (opt_str want))
  else true.

(** The calls of the modelled part of the API. *)
Inductive call :=
  | Core (r : request)
  | CreateUser (now : datetime) (user : AppUser)
  | ListUsers (city blood_group : option string)
  | AwardKarma (payload : KarmaAward)
  | AddDoctor (now : datetime) (d : Doctor)
  | ListDoctors (hospital_id department : option string)
  | GetDocumentById (collection_name doc_id : string)
  | GetDocuments (collection_name : string) (filter_dict : option dict)
      (limit : option N)
  | CreateBloodRequest (now : datetime) (req : BloodRequest)
  | ListBloodRequests (city blood_group status : option string).

(** The world a call leaves behind, however it ends. *)
Definition after (c : call) (w : world) : world :=
  match c with
  | Core r => (handle r w).2
  | CreateUser now u => (create_user now u w).2
  | ListUsers city bg => (list_users city bg w).2
  | AwardKarma p => (award_karma p w).2
  | AddDoctor now d => (add_doctor now d w).2
  | ListDoctors h dep => (list_doctors h dep w).2
  | GetDocumentById name s => (get_document_by_id name s w).2
  | GetDocuments name flt lim => (get_documents name flt lim w).2
  | CreateBloodRequest now req => (create_blood_request now req w).2
  | ListBloodRequests city bg st => (list_blood_requests city bg st w).2
  end.

Definition after_all (cs : list call) (w : world) : world :=
  foldl (λ w c, after c w) w cs.

Definition user1 : AppUser :=
  mk_AppUser "Asha" None (Some "9800000000") (Some "Pokhara") (Some 30)
    (Some "O+") 5.
Definition user2 : AppUser :=
  mk_AppUser "Bikash" None None (Some "Kathmandu") None (Some "A-") 0.
Definition doctor_rec1 : Doctor := mk_Doctor "Dr. Rai" "ENT" "h1" (Some 12).

(** Whether BSON keeps a value as it is: an [int] must fit eight bytes. *)
Definition value_fits (v : value) : bool :=
  match v with
  | VInt n => int64_ok n
  | _ => true
  end.

(** A dict the driver can encode. *)
Definition ints_fit (f : dict) : bool :=
  bool_decide (map_Forall (λ _ v, value_fits v = true) f).

(** A datetime is stored with less precision than Python keeps, and read
    back without its offset. *)
Definition is_date (v : value) : bool :=
  match v with
  | VDate _ => true
  | _ => false
  end.

(** Whether a run of awards on a karma of [n] stays within what the store
    can hold. *)
Fixpoint sums_fit (n : Z) (ps : list Z) : bool :=
  match ps with
  | [] => true
  | p :: ps' => int64_ok p && int64_ok (n + p) && sums_fit (n + p) ps'
  end.

Definition request1 : BloodRequest :=
  mk_BloodRequest "u1" "Pokhara" "O+" 2 high None open.
Definition request2 : BloodRequest :=
  mk_BloodRequest "u2" "Pokhara" "O+" 1 medium (Some "urgent") fulfilled.

(** * Properties *)

(** ** The store *)

Section store.
Implicit Types (c : collection) (d : stored) (k : string) (patch : dict).

Lemma doc_matches_key k d :
  doc_matches {["_key" := VStr k]} d
  = bool_decide (doc_fields d !! "_key" = Some (VStr k)).
Proof.
  unfold doc_matches, to_dict.
  apply bool_decide_ext. rewrite map_Forall_singleton.
  by rewrite lookup_insert_ne.
Qed.


Lemma first_match_snoc (flt : dict) c d :
  first_match flt (c ++ [d])
  = match first_match flt c with
    | Some x => Some x
    | None => if doc_matches flt d then Some d else None
    end.
Proof.
  induction c as [|x c IH]; simpl; [done|].
  by destruct (doc_matches flt x).
Qed.

Lemma set_first_None (flt : dict) patch c :
  first_match flt c = None → set_first flt patch c = None.
Proof.
  induction c as [|x c IH]; simpl; [done|].
  destruct (doc_matches flt x); [done|].
  intros H. by rewrite IH.
Qed.

(** Patching the feed of [k] with a patch that keeps its [_key]. *)
Lemma set_first_key k patch c d :
  patch !! "_key" = Some (VStr k) →
  first_match {["_key" := VStr k]} c = Some d →
  ∃ c', set_first {["_key" := VStr k]} patch c = Some c'
    ∧ first_match {["_key" := VStr k]} c'
      = Some (mk_stored (doc_id d) (patch ∪ doc_fields d))
    ∧ ∀ k', k' ≠ k →
        first_match {["_key" := VStr k']} c'
        = first_match {["_key" := VStr k']} c.
Proof.
  intros Hp. induction c as [|x c IH]; simpl; [done|].
  destruct (doc_matches {["_key" := VStr k]} x) eqn:E.
  - intros [= ->]. eexists; split; [done|]. split.
    + simpl. rewrite doc_matches_key. simpl.
      rewrite bool_decide_eq_true_2; [done|].
      by rewrite lookup_union_l'.
    + intros k' Hk. simpl. rewrite !doc_matches_key. simpl.
      rewrite doc_matches_key in E. apply bool_decide_eq_true_1 in E.
      rewrite !bool_decide_eq_false_2; [done| |].
      * rewrite E. congruence.
      * rewrite (lookup_union_Some_l _ _ _ _ Hp). congruence.
  - intros H. destruct (IH H) as (c' & -> & H1 & H2).
    eexists; split; [done|]. split.
    + simpl. by rewrite E.
    + intros k' Hk. simpl. by rewrite H2.
Qed.

(** A fresh feed for [k] appended after no match. *)
Lemma first_match_new_feed k c d :
  doc_fields d !! "_key" = Some (VStr k) →
  first_match {["_key" := VStr k]} c = None →
  first_match {["_key" := VStr k]} (c ++ [d]) = Some d
  ∧ ∀ k', k' ≠ k →
      first_match {["_key" := VStr k']} (c ++ [d])
      = first_match {["_key" := VStr k']} c.
Proof.
  intros Hd Hc. split.
  - rewrite first_match_snoc, Hc, doc_matches_key.
    by rewrite bool_decide_eq_true_2.
  - intros k' Hk. rewrite first_match_snoc, doc_matches_key.
    rewrite bool_decide_eq_false_2.
    + by destruct (first_match {["_key" := VStr k']} c).
    + rewrite Hd. congruence.
Qed.
End store.

(** ** Driver calls *)

Section driver.
Implicit Types (w : world) (name : string) (flt patch data : dict).

Lemma coll_find_one_run name flt w :
  coll_find_one name flt w
  = if call_ok w
    then (inr (to_dict <$> first_match flt (docs_of name w)), tick_world w)
    else (inl (call_exn w), w).
Proof.
  unfold coll_find_one, bind, get_collection, round_trip, call_ok, call_exn,
    docs_of, tick_world, ret.
  destruct w as [[cs|] o [[|n]|]]; reflexivity.
Qed.

Lemma coll_update_one_upsert_run name flt patch w :
  coll_update_one_upsert name flt patch w
  = if call_ok w
    then (inr tt,
          match set_first flt patch (docs_of name w) with
          | Some c' => set_docs name c' (tick_world w)
          | None =>
              set_docs name
                (docs_of name w ++ [mk_stored (mk_oid (next_oid w)) (patch ∪ flt)])
                (bump_oid (tick_world w))
          end)
    else (inl (call_exn w), w).
Proof.
  unfold coll_update_one_upsert, bind, get_collection, round_trip, call_ok,
    call_exn, docs_of, tick_world, set_docs, bump_oid, put_collection,
    fresh_oid, ret.
  destruct w as [[cs|] o [[|n]|]]; simpl; try reflexivity;
    destruct (set_first flt patch (default [] (cs !! name))); reflexivity.
Qed.

Lemma create_document_run now name data w :
  create_document now name data w
  = match db w with
    | None => (inl (Exception "Database not available. Check DATABASE_URL and DATABASE_NAME environment variables."), w)
    | Some _ =>
        if call_ok w
        then (inr (ObjectId_str (mk_oid (next_oid w))),
              set_docs name
                (docs_of name w
                   ++ [mk_stored (mk_oid (next_oid w))
                         (<["updated_at" := VDate now]>
                            (<["created_at" := VDate now]> data))])
                (bump_oid (tick_world w)))
        else (inl (PyMongoError "connection lost"), w)
    end.
Proof.
  unfold create_document, _ensure_db, coll_insert_one, bind, get_collection,
    round_trip, call_ok, docs_of, tick_world, set_docs, bump_oid,
    put_collection, fresh_oid, ret.
  destruct w as [[cs|] o [[|n]|]]; reflexivity.
Qed.

Lemma docs_of_tick name w : docs_of name (tick_world w) = docs_of name w.
Proof. reflexivity. Qed.

Lemma docs_of_bump name w : docs_of name (bump_oid w) = docs_of name w.
Proof. reflexivity. Qed.

Lemma docs_of_set_docs name c w :
  is_Some (db w) → docs_of name (set_docs name c w) = c.
Proof.
  intros [cs H]. unfold docs_of, set_docs. simpl. rewrite H. simpl.
  by rewrite lookup_insert_eq.
Qed.

Lemma docs_of_set_docs_ne name name' c w :
  name ≠ name' → docs_of name' (set_docs name c w) = docs_of name' w.
Proof.
  intros Hn. unfold docs_of, set_docs. simpl.
  destruct (db w) as [cs|]; simpl; [|done]. by rewrite lookup_insert_ne.
Qed.

Lemma call_ok_db w : call_ok w = true → is_Some (db w).
Proof. unfold call_ok. destruct (db w); [eauto|done]. Qed.

Lemma up_call_ok w : up w → call_ok w = true.
Proof. intros [[cs H1] H2]. unfold call_ok. by rewrite H1, H2. Qed.

Lemma up_tick w : up w → tick_world w = w.
Proof. intros [_ H]. destruct w as [d o x]. simpl in H. by subst. Qed.

Lemma up_set_docs name c w : up w → up (set_docs name c w).
Proof.
  intros [[cs H1] H2]. split; [|done]. unfold set_docs. simpl.
  rewrite H1. simpl. eauto.
Qed.

Lemma up_bump w : up w → up (bump_oid w).
Proof. by intros [H1 H2]. Qed.
End driver.

(** ** The three stretches of a booking *)

Section phases.
Implicit Types (w : world) (b : Booking) (t : Z).

Lemma dict_truthy_to_dict (d : stored) : dict_truthy (to_dict d) = true.
Proof.
  unfold dict_truthy, to_dict. rewrite bool_decide_eq_false_2; [done|].
  apply insert_non_empty.
Qed.

Lemma book_read_run b w :
  book_read b w
  = if ObjectId_is_valid (doctor_id b) then
      if call_ok w then
        (match next_token_for w (booking_key b) with
         | Some t => inr t
         | None => inl (TypeError "unsupported operand type(s) for +")
         end, tick_world w)
      else (inl (call_exn w), w)
    else (inl (HTTPException 400 "Invalid doctor id"), w).
Proof.
  unfold book_read, bind at 1.
  destruct (ObjectId_is_valid (doctor_id b)); [|done].
  unfold ret at 1. unfold bind. rewrite coll_find_one_run.
  destruct (call_ok w); [|done].
  unfold next_token_for, feed_at, booking_key.
  destruct (first_match _ (docs_of "tokenfeed" w)) as [d|]; simpl; [|done].
  rewrite dict_truthy_to_dict. unfold to_dict.
  rewrite lookup_insert_ne; [|done].
  by destruct (doc_fields d !! "last_token") as [[]|].
Qed.

Lemma book_write_run b t w :
  book_write b t w
  = if call_ok w then (inr tt, write_feed b t w) else (inl (call_exn w), w).
Proof. unfold book_write. by rewrite coll_update_one_upsert_run. Qed.

Lemma book_insert_run now b t w :
  book_insert now b t w
  = match db w with
    | None => (inl (Exception "Database not available. Check DATABASE_URL and DATABASE_NAME environment variables."), w)
    | Some _ =>
        if call_ok w
        then (inr (booking_answer t w), insert_booking now b t w)
        else (inl (PyMongoError "connection lost"), w)
    end.
Proof.
  unfold book_insert, bind. rewrite create_document_run.
  destruct (db w); [|done]. by destruct (call_ok w).
Qed.

(** The handler is its three stretches run back to back. *)
Lemma book_appointment_phases now b w :
  book_appointment now b w
  = (t <- book_read b;; book_write b t;;; book_insert now b t) w.
Proof.
  unfold book_appointment, book_read, book_write, book_insert, bind.
  destruct (ObjectId_is_valid (doctor_id b)); [|done].
  unfold ret, raise.
  destruct (coll_find_one _ _ w) as [[e|[f|]] w1]; [done| |done].
  destruct (dict_truthy f); [|done].
  by destruct (f !! "last_token") as [[]|].
Qed.

(** *** What the feed write does to the store *)

Lemma booking_patch_key b t :
  booking_patch b t !! "_key" = Some (VStr (booking_key b)).
Proof. unfold booking_patch. by rewrite lookup_insert_eq. Qed.

Lemma booking_patch_last_token b t :
  booking_patch b t !! "last_token" = Some (VInt t).
Proof. reflexivity. Qed.

Lemma new_feed_key b t (o : N) :
  doc_fields
    (mk_stored (mk_oid o)
       (booking_patch b t ∪ {["_key" := VStr (booking_key b)]}))
    !! "_key" = Some (VStr (booking_key b)).
Proof.
  simpl. by rewrite (lookup_union_Some_l _ _ _ _ (booking_patch_key b t)).
Qed.

Lemma write_feed_last_token b t w :
  is_Some (db w) → last_token_at (write_feed b t w) (booking_key b) = Some t.
Proof.
  intros Hdb. unfold last_token_at, feed_at, write_feed.
  destruct (first_match {["_key" := VStr (booking_key b)]}
              (docs_of "tokenfeed" w)) as [d|] eqn:E.
  - destruct (set_first_key _ _ _ _ (booking_patch_key b t) E)
      as (c' & -> & H1 & _).
    rewrite docs_of_set_docs by done. rewrite H1. simpl.
    unfold int_field. simpl.
    by rewrite (lookup_union_Some_l _ _ _ _ (booking_patch_last_token b t)).
  - rewrite (set_first_None _ _ _ E).
    rewrite docs_of_set_docs by done.
    destruct (first_match_new_feed _ _ _ (new_feed_key b t (next_oid w)) E)
      as [-> _].
    simpl. unfold int_field. simpl.
    by rewrite (lookup_union_Some_l _ _ _ _ (booking_patch_last_token b t)).
Qed.

Lemma write_feed_other_key b t w k :
  k ≠ booking_key b → feed_at (write_feed b t w) k = feed_at w k.
Proof.
  intros Hk. unfold feed_at, write_feed.
  destruct (db w) as [cs|] eqn:Hdb.
  2:{ assert (∀ n w', db w' = None → docs_of n w' = []) as Hn
        by (intros n w' H; unfold docs_of; by rewrite H).
      rewrite (Hn _ w Hdb). simpl.
      rewrite Hn; [done|]. simpl. by rewrite Hdb. }
  assert (is_Some (db w)) as Hs by eauto.
  destruct (first_match {["_key" := VStr (booking_key b)]}
              (docs_of "tokenfeed" w)) as [d|] eqn:E.
  - destruct (set_first_key _ _ _ _ (booking_patch_key b t) E)
      as (c' & -> & _ & H2).
    rewrite docs_of_set_docs by done. by apply H2.
  - rewrite (set_first_None _ _ _ E).
    rewrite docs_of_set_docs by done.
    destruct (first_match_new_feed _ _ _ (new_feed_key b t (next_oid w)) E)
      as [_ H2].
    by apply H2.
Qed.

Lemma write_feed_docs b t w name :
  name ≠ "tokenfeed" → docs_of name (write_feed b t w) = docs_of name w.
Proof.
  intros Hn. unfold write_feed.
  destruct (set_first _ _ _); by rewrite docs_of_set_docs_ne.
Qed.

Lemma insert_booking_docs now b t w :
  is_Some (db w) →
  docs_of "booking" (insert_booking now b t w)
  = (docs_of "booking" w
      ++ [mk_stored (mk_oid (next_oid w)) (booking_record now b t)])%list.
Proof. intros H. unfold insert_booking. by rewrite docs_of_set_docs. Qed.

Lemma insert_booking_feed now b t w k :
  feed_at (insert_booking now b t w) k = feed_at w k.
Proof.
  unfold feed_at, insert_booking. by rewrite docs_of_set_docs_ne.
Qed.

Lemma up_write_feed b t w : up w → up (write_feed b t w).
Proof.
  intros H. unfold write_feed. rewrite (up_tick w H).
  destruct (set_first _ _ _); auto using up_set_docs, up_bump.
Qed.

Lemma up_insert_booking now b t w : up w → up (insert_booking now b t w).
Proof.
  intros H. unfold insert_booking. rewrite (up_tick w H).
  auto using up_set_docs, up_bump.
Qed.
End phases.

(** ** One booking against a store that is up *)

Section booking.
Implicit Types (w : world) (b : Booking) (t n : Z) (k : string).

Lemma next_token_absent w k : feed_at w k = None → next_token_for w k = Some 1.
Proof. unfold next_token_for. by intros ->. Qed.

Lemma next_token_after w k n :
  last_token_at w k = Some n → next_token_for w k = Some (n + 1).
Proof.
  unfold last_token_at, next_token_for, int_field.
  destruct (feed_at w k) as [d|]; simpl; [|done].
  destruct (doc_fields d !! "last_token") as [[]|]; try done.
  by intros [= ->].
Qed.

Lemma book_appointment_up now b w t :
  up w →
  ObjectId_is_valid (doctor_id b) = true →
  next_token_for w (booking_key b) = Some t →
  book_appointment now b w
  = (inr (booking_answer t (write_feed b t w)),
     insert_booking now b t (write_feed b t w)).
Proof.
  intros Hup Hv Ht. rewrite book_appointment_phases. unfold bind.
  rewrite book_read_run, Hv, (up_call_ok w Hup), Ht, (up_tick w Hup).
  rewrite book_write_run, (up_call_ok w Hup).
  pose proof (up_write_feed b t w Hup) as Hup'.
  rewrite book_insert_run, (up_call_ok _ Hup').
  by destruct Hup' as [[cs ->] _].
Qed.

Lemma serve_book_appointment_up now b w t :
  up w →
  ObjectId_is_valid (doctor_id b) = true →
  next_token_for w (booking_key b) = Some t →
  serve (book_appointment now b) w
  = (Response 200 (booking_answer t (write_feed b t w)),
     insert_booking now b t (write_feed b t w)).
Proof.
  intros Hup Hv Ht. unfold serve.
  by rewrite (book_appointment_up now b w t Hup Hv Ht).
Qed.

Lemma response_token_answer t w :
  response_token (Response 200 (booking_answer t w)) = Some t.
Proof. reflexivity. Qed.

Lemma booked_last_token now b t w :
  is_Some (db w) →
  last_token_at (insert_booking now b t (write_feed b t w)) (booking_key b)
  = Some t.
Proof.
  intros H. unfold last_token_at. rewrite insert_booking_feed.
  by apply write_feed_last_token.
Qed.

Lemma booked_other_key now b t w k :
  k ≠ booking_key b →
  feed_at (insert_booking now b t (write_feed b t w)) k = feed_at w k.
Proof.
  intros H. rewrite insert_booking_feed. by apply write_feed_other_key.
Qed.

Lemma run_cons r rs w :
  run (r :: rs) w
  = ((serve (handle r) w).1 :: (run rs (serve (handle r) w).2).1,
     (run rs (serve (handle r) w).2).2).
Proof.
  simpl. destruct (serve (handle r) w) as [resp w1]. simpl.
  by destruct (run rs w1).
Qed.

Lemma fmap_seq_shift {A} (f g : nat → A) (a len : nat) :
  (∀ i, f i = g (S i)) → f <$> seq a len = g <$> seq (S a) len.
Proof.
  intros H. revert a. induction len as [|len IH]; intros a; simpl; [done|].
  by rewrite H, IH.
Qed.

End booking.

(** ** One booking against any store *)

Section outcome.
Implicit Types (w : world) (b : Booking) (t n : Z) (k : string).

Lemma write_feed_db b t w : is_Some (db w) → is_Some (db (write_feed b t w)).
Proof.
  intros [cs H]. unfold write_feed.
  destruct (set_first _ _ _); unfold set_docs; simpl; rewrite H; simpl; eauto.
Qed.

(** Every way a booking can end. *)
Lemma book_appointment_run now b w :
  book_appointment now b w
  = if ObjectId_is_valid (doctor_id b) then
      if call_ok w then
        match next_token_for w (booking_key b) with
        | None =>
            (inl (TypeError "unsupported operand type(s) for +"), tick_world w)
        | Some t =>
            let w1 := tick_world w in
            if call_ok w1 then
              let w2 := write_feed b t w1 in
              if call_ok w2
              then (inr (booking_answer t w2), insert_booking now b t w2)
              else (inl (PyMongoError "connection lost"), w2)
            else (inl (call_exn w1), w1)
        end
      else (inl (call_exn w), w)
    else (inl (HTTPException 400 "Invalid doctor id"), w).
Proof.
  rewrite book_appointment_phases. unfold bind. rewrite book_read_run.
  destruct (ObjectId_is_valid (doctor_id b)); [|done].
  destruct (call_ok w) eqn:Hw; [|done].
  destruct (next_token_for w (booking_key b)) as [t|]; [|done].
  cbv zeta. rewrite book_write_run.
  destruct (call_ok (tick_world w)) eqn:Hw1; [|done].
  rewrite book_insert_run.
  destruct (write_feed_db b t (tick_world w)) as [cs ->]; [|done].
  by apply call_ok_db.
Qed.

Lemma next_token_for_inv w k t :
  next_token_for w k = Some t →
  (feed_at w k = None → t = 1)
  ∧ (∀ n, last_token_at w k = Some n → t = n + 1).
Proof.
  intros Ht. split.
  - intros H. rewrite (next_token_absent _ _ H) in Ht. congruence.
  - intros n H. rewrite (next_token_after _ _ _ H) in Ht. congruence.
Qed.

(** Whatever happens to a booking, the feeds of other keys stay as they
    are. *)
Lemma book_appointment_other_key now b w k :
  k ≠ booking_key b →
  feed_at (book_appointment now b w).2 k = feed_at w k.
Proof.
  intros Hk. rewrite book_appointment_run.
  destruct (ObjectId_is_valid (doctor_id b)); [|done].
  destruct (call_ok w); [|done].
  destruct (next_token_for w (booking_key b)) as [t|]; [|done].
  cbv zeta. destruct (call_ok (tick_world w)); [|done].
  destruct (call_ok (write_feed b t (tick_world w))); simpl.
  - rewrite insert_booking_feed. by rewrite write_feed_other_key.
  - by rewrite write_feed_other_key.
Qed.

Lemma serve_world (h : M dict) w : (serve h w).2 = (h w).2.
Proof. unfold serve. by destruct (h w) as [[[]|] w']. Qed.
End outcome.

(** ** Keys *)

Section keys.
Implicit Types (s t d k : string).

Lemma string_app_inj_length s1 s2 t1 t2 :
  String.length s1 = String.length s2 →
  s1 +:+ t1 = s2 +:+ t2 → s1 = s2 ∧ t1 = t2.
Proof.
  revert s2. induction s1 as [|c s1 IH]; intros [|c' s2]; simpl; try done.
  intros [= Hl] [= -> H]. destruct (IH s2 Hl H) as [-> ->]. done.
Qed.

Lemma ObjectId_is_valid_length s :
  ObjectId_is_valid s = true → String.length s = 24%nat.
Proof.
  unfold ObjectId_is_valid. intros [H _]%andb_prop. by apply Nat.eqb_eq.
Qed.

Lemma feed_name_of_inj d1 d2 k1 k2 :
  String.length d1 = String.length d2 →
  feed_name_of d1 k1 = feed_name_of d2 k2 → d1 = d2 ∧ k1 = k2.
Proof.
  intros Hl. unfold feed_name_of. intros H.
  apply (string_app_inj_length "tokenfeed_" "tokenfeed_") in H as [_ H];
    [|done].
  apply string_app_inj_length in H as [-> H]; [|done].
  apply (string_app_inj_length "_" "_") in H as [_ ->]; done.
Qed.

Lemma digit_inj (a b : Z) : digit a = digit b → a mod 10 = b mod 10.
Proof.
  unfold digit. intros H. apply (f_equal N_of_ascii) in H.
  assert (0 <= a mod 10 < 10) by (apply Z.mod_pos_bound; lia).
  assert (0 <= b mod 10 < 10) by (apply Z.mod_pos_bound; lia).
  rewrite !N_ascii_embedding in H by lia. lia.
Qed.

Lemma datetime_ok_bounds (d : datetime) :
  datetime_ok d = true →
  1 <= year d <= 9999 ∧ 1 <= month d <= 12 ∧ 1 <= day d <= 31.
Proof.
  unfold datetime_ok. rewrite !andb_true_iff, !Z.leb_le. lia.
Qed.

(** The date key names the calendar date and nothing else. *)
Lemma strftime_Ymd_inj (d1 d2 : datetime) :
  datetime_ok d1 = true → datetime_ok d2 = true →
  strftime_Ymd d1 = strftime_Ymd d2 →
  year d1 = year d2 ∧ month d1 = month d2 ∧ day d1 = day d2.
Proof.
  intros H1%datetime_ok_bounds H2%datetime_ok_bounds.
  unfold strftime_Ymd, pad4, pad2. cbn [String.append].
  intros [= Y1 Y2 Y3 Y4 M1 M2 D1 D2].
  apply digit_inj in Y1, Y2, Y3, Y4, M1, M2, D1, D2.
  repeat split; Z.to_euclidean_division_equations; lia.
Qed.

Lemma strftime_Ymd_calendar (d1 d2 : datetime) :
  year d1 = year d2 → month d1 = month d2 → day d1 = day d2 →
  strftime_Ymd d1 = strftime_Ymd d2.
Proof. unfold strftime_Ymd. by intros -> -> ->. Qed.

End keys.


(** ** The current-token pointer and the status query *)

Section status.
Implicit Types (w : world) (t : TokenUpdate) (k : string).

Lemma update_token_run t w :
  update_token t w
  = if call_ok w then (inr {["status" := VStr "ok"]}, set_current t w)
    else (inl (call_exn w), w).
Proof.
  unfold update_token, bind. fold (update_key t). fold (update_patch t).
  rewrite coll_update_one_upsert_run. by destruct (call_ok w).
Qed.

Lemma token_status_run (d dk : string) w :
  token_status d dk w
  = if call_ok w then (inr (status_body w (feed_name_of d dk)), tick_world w)
    else (inl (call_exn w), w).
Proof.
  unfold token_status, bind. rewrite coll_find_one_run.
  destruct (call_ok w); [|done]. unfold ret, status_body, feed_at.
  destruct (first_match _ (docs_of "tokenfeed" w)) as [f|]; simpl; [|done].
  rewrite dict_truthy_to_dict. unfold to_dict at 1.
  by rewrite lookup_insert_eq.
Qed.

Lemma update_patch_key t : update_patch t !! "_key" = Some (VStr (update_key t)).
Proof. unfold update_patch. by rewrite lookup_insert_eq. Qed.





Lemma up_set_current t w : up w → up (set_current t w).
Proof.
  intros H. unfold set_current. rewrite (up_tick w H).
  destruct (set_first _ _ _); auto using up_set_docs, up_bump.
Qed.

End status.

(** ** Requests in flight together *)

(** A thread that is never interleaved does what the handler does. *)
Lemma thread_alone (now : datetime) (b : Booking) (w : world) :
  run_schedule [0; 0; 0]%nat [Start now b] w
  = ([Finished (serve (book_appointment now b) w).1],
     (serve (book_appointment now b) w).2).
Proof.
  unfold serve. rewrite book_appointment_phases. unfold bind. simpl.
  destruct (book_read b w) as [[e|t] w1]; simpl.
  { by destruct e. }
  destruct (book_write b t w1) as [[e|[]] w2]; simpl.
  { by destruct e. }
  destruct (book_insert now b t w2) as [[e|body] w3]; simpl; [|done].
  by destruct e.
Qed.

Lemma thread_step_start_up (now : datetime) (b : Booking) (w : world) (t : Z) :
  up w →
  ObjectId_is_valid (doctor_id b) = true →
  next_token_for w (booking_key b) = Some t →
  thread_step (Start now b) w = (HaveToken now b t, w).
Proof.
  intros Hup Hv Ht. simpl.
  by rewrite book_read_run, Hv, (up_call_ok w Hup), Ht, (up_tick w Hup).
Qed.

Lemma thread_step_write_up (now : datetime) (b : Booking) (w : world) (t : Z) :
  up w →
  thread_step (HaveToken now b t) w = (FeedWritten now b t, write_feed b t w).
Proof. intros Hup. simpl. by rewrite book_write_run, (up_call_ok w Hup). Qed.

Lemma thread_step_insert_up (now : datetime) (b : Booking) (w : world) (t : Z) :
  up w →
  thread_step (FeedWritten now b t) w
  = (Finished (Response 200 (booking_answer t w)), insert_booking now b t w).
Proof.
  intros Hup. simpl. rewrite book_insert_run, (up_call_ok w Hup).
  by destruct Hup as [[cs ->] _].
Qed.

(** Two bookings for one key that both read before either writes are
    answered with the same token, in every store that is up. *)
Lemma racing_bookings_same_token (now1 now2 : datetime) (b1 b2 : Booking)
    (w : world) (t : Z) :
  up w →
  ObjectId_is_valid (doctor_id b1) = true →
  ObjectId_is_valid (doctor_id b2) = true →
  booking_key b1 = booking_key b2 →
  next_token_for w (booking_key b1) = Some t →
  thread_token <$>
    (run_schedule [0; 1; 0; 1; 0; 1]%nat [Start now1 b1; Start now2 b2] w).1
  = [Some t; Some t].
Proof.
  intros Hup Hv1 Hv2 Hk Ht. cbn [run_schedule lookup list_lookup].
  rewrite (thread_step_start_up now1 b1 w t Hup Hv1 Ht).
  cbn [run_schedule lookup list_lookup insert list_insert].
  rewrite Hk in Ht. rewrite (thread_step_start_up now2 b2 w t Hup Hv2 Ht).
  cbn [run_schedule lookup list_lookup insert list_insert].
  rewrite (thread_step_write_up now1 b1 w t Hup).
  cbn [run_schedule lookup list_lookup insert list_insert].
  pose proof (up_write_feed b1 t w Hup) as Hup1.
  rewrite (thread_step_write_up now2 b2 _ t Hup1).
  cbn [run_schedule lookup list_lookup insert list_insert].
  pose proof (up_write_feed b2 t _ Hup1) as Hup2.
  rewrite (thread_step_insert_up now1 b1 _ t Hup2).
  cbn [run_schedule lookup list_lookup insert list_insert].
  pose proof (up_insert_booking now1 b1 t _ Hup2) as Hup3.
  rewrite (thread_step_insert_up now2 b2 _ t Hup3).
  reflexivity.
Qed.

(** ** The properties of the specification *)

Lemma up_empty_world : up empty_world.
Proof. split; [by eexists|done]. Defined.



(** The scenario of the specification: three bookings for one doctor on
    2024-06-01 in an empty store return 1, 2 and 3 in call order. *)
Example three_bookings_in_order :
  response_token <$>
    (run [PostBookings clock0 booking1; PostBookings clock0 booking2;
          PostBookings clock0 booking4] empty_world).1
  = [Some 1; Some 2; Some 3].
Proof. vm_compute. reflexivity. Qed.

(** C2.  Two bookings for one key in flight together, each reading the
    feed before the other writes it: both are answered 200 with token 1,
    two booking records are stored, and the feed holds [last_token = 1].
    The same two bookings handled one after the other get 1 and 2. *)
Theorem concurrent_bookings_share_a_token :
  let ts := [Start clock0 booking1; Start clock0 booking2] in
  let racy := run_schedule [0; 1; 0; 1; 0; 1]%nat ts empty_world in
  let serial := run_schedule [0; 0; 0; 1; 1; 1]%nat ts empty_world in
  booking_key booking1 = booking_key booking2
  ∧ thread_token <$> racy.1 = [Some 1; Some 1]
  ∧ List.length (docs_of "booking" racy.2) = 2%nat
  ∧ last_token_at racy.2 (booking_key booking1) = Some 1
  ∧ thread_token <$> serial.1 = [Some 1; Some 2]
  ∧ last_token_at serial.2 (booking_key booking1) = Some 2.
Proof. vm_compute. repeat split; reflexivity. Qed.

(** C3. Invalid-reference atomicity.  A booking whose [doctor_id] is not a
    well-formed ObjectId is answered with status 400, and the world it ran
    in is left exactly as it was: no feed is touched and no booking record
    is stored. *)
Theorem invalid_doctor_id_no_mutation (now : datetime) (b : Booking) (w : world) :
  ObjectId_is_valid (doctor_id b) = false →
  serve (book_appointment now b) w
  = (ErrorResponse 400 "Invalid doctor id", w).
Proof.
  intros Hv. unfold serve. rewrite book_appointment_run. by rewrite Hv.
Qed.

Lemma invalid_doctor_id_no_mutation_witness :
  serve (book_appointment clock0 booking_bad) empty_world
  = (ErrorResponse 400 "Invalid doctor id", empty_world).
Proof.
  apply (invalid_doctor_id_no_mutation clock0 booking_bad empty_world).
  vm_compute. reflexivity.
Defined.

(** C4, as stated, fails: with the connection lost after the feed write,
    the booking ends in a 500, no booking record is stored, and yet the
    feed that did not exist before now holds [last_token = 1]. *)
Lemma insert_failure_keeps_feed_write :
  let w := mk_world (Some ∅) 0 (Some 2%nat) in
  let out := serve (book_appointment clock0 booking1) w in
  out.1 = ErrorResponse 500 "Internal Server Error"
  ∧ docs_of "booking" out.2 = docs_of "booking" w
  ∧ docs_of "tokenfeed" out.2 ≠ docs_of "tokenfeed" w
  ∧ feed_at w (booking_key booking1) = None
  ∧ last_token_at out.2 (booking_key booking1) = Some 1.
Proof. vm_compute. repeat split; done. Qed.

(** C4, amended.  A booking ends in one of three ways.  It succeeds: the
    answer is 200 with the chosen token [t] (1 without a feed, the stored
    [last_token] plus one otherwise), the feed holds [last_token = t] and a
    booking record with token [t] is appended.  It fails before the feed
    write went through: an error is answered and the database is exactly
    as before.  Or it fails in the insert after the feed write: a 500 is
    answered, no booking record is stored, the feed of the key holds
    [last_token = t], and every other feed is as before. *)
Theorem booking_outcomes (now : datetime) (b : Booking) (w : world) :
  let key := booking_key b in
  let out := serve (book_appointment now b) w in
  (∃ t, next_token_for w key = Some t
     ∧ (feed_at w key = None → t = 1)
     ∧ (∀ n, last_token_at w key = Some n → t = n + 1)
     ∧ response_token out.1 = Some t
     ∧ last_token_at out.2 key = Some t
     ∧ ∃ i, docs_of "booking" out.2
            = (docs_of "booking" w ++ [mk_stored i (booking_record now b t)])%list)
  ∨ ((∃ c detail, out.1 = ErrorResponse c detail) ∧ db out.2 = db w)
  ∨ (∃ t, next_token_for w key = Some t
       ∧ (feed_at w key = None → t = 1)
       ∧ (∀ n, last_token_at w key = Some n → t = n + 1)
       ∧ out.1 = ErrorResponse 500 "Internal Server Error"
       ∧ docs_of "booking" out.2 = docs_of "booking" w
       ∧ last_token_at out.2 key = Some t
       ∧ ∀ k, k ≠ key → feed_at out.2 k = feed_at w k).
Proof.
  intros key out. subst key out. unfold serve. rewrite book_appointment_run.
  destruct (ObjectId_is_valid (doctor_id b)); [|right; left; eauto].
  destruct (call_ok w) eqn:Hw;
    [|right; left; destruct (call_exn w); eauto].
  destruct (next_token_for w (booking_key b)) as [t|] eqn:Ht;
    [|right; left; eauto].
  destruct (next_token_for_inv _ _ _ Ht) as [Ha Hn].
  cbv zeta.
  destruct (call_ok (tick_world w)) eqn:Hw1;
    [|right; left; destruct (call_exn _); eauto].
  assert (is_Some (db (tick_world w))) as Hdb by by apply call_ok_db.
  destruct (call_ok (write_feed b t (tick_world w))) eqn:Hw2; cbn [fst snd].
  - left. exists t. do 4 (split; [done|]). split.
    + by apply booked_last_token.
    + eexists. rewrite insert_booking_docs by by apply write_feed_db.
      by rewrite write_feed_docs, docs_of_tick.
  - right; right. exists t. do 4 (split; [done|]). split; [|split].
    + by rewrite write_feed_docs, docs_of_tick.
    + by apply write_feed_last_token.
    + intros k Hk. by rewrite write_feed_other_key.
Qed.

(** C5. The sequencing key is the doctor and the calendar date.  For
    bookings with well-formed doctor ids and dates in Python's range: the
    feed names are equal exactly when the doctor ids and the year, month
    and day are equal, whatever the time of day; a booking never changes
    the feed of another key, however it ends; in a store that is up, two
    bookings with the same key and no feed yet return 1 and 2, and two
    bookings with different keys and no feeds yet both return 1. *)
Theorem sequencing_key (now1 now2 : datetime) (b1 b2 : Booking) (w : world) :
  ObjectId_is_valid (doctor_id b1) = true →
  ObjectId_is_valid (doctor_id b2) = true →
  datetime_ok (date b1) = true →
  datetime_ok (date b2) = true →
  let same_day :=
    year (date b1) = year (date b2) ∧ month (date b1) = month (date b2)
    ∧ day (date b1) = day (date b2) in
  let tokens :=
    response_token <$> (run [PostBookings now1 b1; PostBookings now2 b2] w).1 in
  (booking_key b1 = booking_key b2 ↔ doctor_id b1 = doctor_id b2 ∧ same_day)
  ∧ (booking_key b1 ≠ booking_key b2 →
     feed_at (serve (book_appointment now1 b1) w).2 (booking_key b2)
     = feed_at w (booking_key b2))
  ∧ (up w → doctor_id b1 = doctor_id b2 → same_day →
     feed_at w (booking_key b1) = None → tokens = [Some 1; Some 2])
  ∧ (up w → ¬ (doctor_id b1 = doctor_id b2 ∧ same_day) →
     feed_at w (booking_key b1) = None → feed_at w (booking_key b2) = None →
     tokens = [Some 1; Some 1]).
Proof.
  intros Hv1 Hv2 Hd1 Hd2 same_day tokens.
  assert (booking_key b1 = booking_key b2 ↔ doctor_id b1 = doctor_id b2 ∧ same_day)
    as Hkey.
  { subst same_day. unfold booking_key. split.
    - intros [Hd Hk]%feed_name_of_inj.
      + split; [done|]. by apply strftime_Ymd_inj.
      + by rewrite !ObjectId_is_valid_length.
    - intros (-> & Hy & Hm & Hdd).
      by rewrite (strftime_Ymd_calendar _ _ Hy Hm Hdd). }
  split; [exact Hkey|]. split; [|split].
  - intros Hne. rewrite serve_world.
    apply book_appointment_other_key. congruence.
  - intros Hup Hd Hs Habs. subst tokens.
    assert (booking_key b1 = booking_key b2) as Hk by (apply Hkey; done).
    rewrite !run_cons. cbn [handle run fst snd].
    rewrite (serve_book_appointment_up now1 b1 w 1 Hup Hv1
               (next_token_absent _ _ Habs)). cbn [fst snd].
    set (w1 := insert_booking now1 b1 1 (write_feed b1 1 w)).
    assert (up w1) as Hup1 by (apply up_insert_booking; by apply up_write_feed).
    assert (last_token_at w1 (booking_key b2) = Some 1) as Hl
      by (rewrite <- Hk; apply booked_last_token; by destruct Hup).
    by rewrite (serve_book_appointment_up now2 b2 w1 (1 + 1) Hup1 Hv2
                  (next_token_after _ _ _ Hl)).
  - intros Hup Hn Habs1 Habs2. subst tokens.
    assert (booking_key b2 ≠ booking_key b1) as Hk
      by (intros E; apply Hn, Hkey; done).
    rewrite !run_cons. cbn [handle run fst snd].
    rewrite (serve_book_appointment_up now1 b1 w 1 Hup Hv1
               (next_token_absent _ _ Habs1)). cbn [fst snd].
    set (w1 := insert_booking now1 b1 1 (write_feed b1 1 w)).
    assert (up w1) as Hup1 by (apply up_insert_booking; by apply up_write_feed).
    assert (feed_at w1 (booking_key b2) = None) as Habs
      by (unfold w1; by rewrite booked_other_key).
    by rewrite (serve_book_appointment_up now2 b2 w1 1 Hup1 Hv2
                  (next_token_absent _ _ Habs)).
Qed.

Lemma sequencing_key_witness :
  let tokens b b' :=
    response_token <$>
      (run [PostBookings clock0 b; PostBookings clock0 b'] empty_world).1 in
  (booking_key booking1 = booking_key booking2
   ∧ tokens booking1 booking2 = [Some 1; Some 2])
  ∧ (booking_key booking1 ≠ booking_key booking3
     ∧ feed_at (serve (book_appointment clock0 booking1) empty_world).2
         (booking_key booking3)
       = feed_at empty_world (booking_key booking3)
     ∧ tokens booking1 booking3 = [Some 1; Some 1]).
Proof.
  split.
  - destruct (sequencing_key clock0 clock0 booking1 booking2 empty_world)
      as (H1 & _ & H3 & _); try (vm_compute; reflexivity).
    split; [apply H1; vm_compute; tauto|].
    apply H3; [exact up_empty_world|reflexivity|vm_compute; tauto|].
    vm_compute. reflexivity.
  - destruct (sequencing_key clock0 clock0 booking1 booking3 empty_world)
      as (H1 & H2 & _ & H4); try (vm_compute; reflexivity).
    assert (¬ (doctor_id booking1 = doctor_id booking3
               ∧ year (date booking1) = year (date booking3)
               ∧ month (date booking1) = month (date booking3)
               ∧ day (date booking1) = day (date booking3))) as Hn
      by (intros (_ & _ & _ & H); discriminate H).
    assert (booking_key booking1 ≠ booking_key booking3) as Hk
      by (intros E; apply Hn, H1, E).
    split; [exact Hk|]. split; [exact (H2 Hk)|].
    apply H4; [exact up_empty_world|exact Hn| |]; vm_compute; reflexivity.
Defined.

(** The scenarios of the specification: one doctor on 2024-06-01 and on
    2024-06-02 gets token 1 on both days; two times of day on 2024-06-01
    share one sequence. *)
Example two_dates_both_token_1 :
  response_token <$>
    (run [PostBookings clock0 booking1; PostBookings clock0 booking3]
       empty_world).1
  = [Some 1; Some 1].
Proof. vm_compute. reflexivity. Qed.

Example two_times_one_sequence :
  hour (date booking1) ≠ hour (date booking2)
  ∧ response_token <$>
      (run [PostBookings clock0 booking1; PostBookings clock0 booking2]
         empty_world).1
    = [Some 1; Some 2].
Proof. vm_compute. split; [discriminate|reflexivity]. Qed.



(** The scenario of the specification: the pointer set to 3 while only one
    token has been issued is what the status shows. *)
Example current_token_beyond_last_token :
  let w := (run [PostBookings clock0 booking1;
                 PostTokenUpdate (mk_TokenUpdate doctor1 "2024-06-01" 3)]
              empty_world).2 in
  last_token_at w (booking_key booking1) = Some 1
  ∧ current_token_at w (booking_key booking1) = Some 3.
Proof. vm_compute. done. Qed.



(** C8. Empty status is not an error.  In a store that is up, GET
    /token/status for a key without a feed answers 200 with the empty
    object and changes nothing. *)
Theorem token_status_no_feed (d dk : string) (w : world) :
  up w →
  feed_at w (feed_name_of d dk) = None →
  serve (token_status d dk) w = (Response 200 ∅, w).
Proof.
  intros Hup Hf. unfold serve.
  rewrite token_status_run, (up_call_ok w Hup), (up_tick w Hup).
  unfold status_body. by rewrite Hf.
Qed.

Lemma token_status_no_feed_witness :
  serve (token_status doctor1 "2024-06-01") empty_world
  = (Response 200 ∅, empty_world).
Proof.
  apply (token_status_no_feed doctor1 "2024-06-01" empty_world).
  - exact up_empty_world.
  - vm_compute. reflexivity.
Defined.

(** C9.  POST /token/update takes a doctor id that is no ObjectId: the
    request is answered 200 and a feed is created under that id, while
    POST /bookings answers the same id with 400 and changes nothing. *)
Theorem update_token_takes_malformed_doctor_id :
  let t := mk_TokenUpdate "D1" "2024-06-01" 3 in
  let out := serve (update_token t) empty_world in
  ObjectId_is_valid (tu_doctor_id t) = false
  ∧ doctor_id booking_bad = tu_doctor_id t
  ∧ out.1 = Response 200 {["status" := VStr "ok"]}
  ∧ feed_at empty_world (update_key t) = None
  ∧ current_token_at out.2 (update_key t) = Some 3
  ∧ serve (book_appointment clock0 booking_bad) empty_world
    = (ErrorResponse 400 "Invalid doctor id", empty_world).
Proof. vm_compute. repeat split; reflexivity. Qed.

(** Without the check a doctor id with an underscore reaches the feed of
    another doctor and date. *)
Example update_token_keys_collide :
  update_key (mk_TokenUpdate "a_b" "c" 1) = update_key (mk_TokenUpdate "a" "b_c" 2).
Proof. reflexivity. Qed.



(** * Further properties of the token feed *)

(** ** Upserts, field by field *)

Section upsert.
Implicit Types (c : collection) (d : stored) (k : string) (patch : dict).

(** A patch leaves the fields it does not mention as they are, also when
    it creates the feed. *)
Lemma upsert_keeps_field k patch c (o : ObjectId) (field : string) :
  patch !! "_key" = Some (VStr k) →
  patch !! field = None →
  (first_match {["_key" := VStr k]}
     (default (c ++ [mk_stored o (patch ∪ {["_key" := VStr k]})])%list
        (set_first {["_key" := VStr k]} patch c))
   ≫= λ d, doc_fields d !! field)
  = (first_match {["_key" := VStr k]} c ≫= λ d, doc_fields d !! field).
Proof.
  intros Hk Hf.
  destruct (first_match {["_key" := VStr k]} c) as [d|] eqn:E.
  - destruct (set_first_key _ _ _ _ Hk E) as (c' & -> & H & _). simpl.
    rewrite H. simpl. by rewrite (lookup_union_r _ _ _ Hf).
  - rewrite (set_first_None _ _ _ E). simpl.
    destruct (first_match_new_feed k c (mk_stored o (patch ∪ {["_key" := VStr k]})))
      as [-> _]; [|done|].
    + simpl. by rewrite (lookup_union_Some_l _ _ _ _ Hk).
    + simpl. rewrite (lookup_union_r _ _ _ Hf).
      rewrite lookup_singleton_ne; [done|]. intros <-. congruence.
Qed.

Lemma upsert_other_key k k' patch c (o : ObjectId) :
  patch !! "_key" = Some (VStr k) →
  k' ≠ k →
  first_match {["_key" := VStr k']}
    (default (c ++ [mk_stored o (patch ∪ {["_key" := VStr k]})])%list
       (set_first {["_key" := VStr k]} patch c))
  = first_match {["_key" := VStr k']} c.
Proof.
  intros Hk Hne.
  destruct (first_match {["_key" := VStr k]} c) as [d|] eqn:E.
  - destruct (set_first_key _ _ _ _ Hk E) as (c' & -> & _ & H). simpl.
    by apply H.
  - rewrite (set_first_None _ _ _ E). simpl.
    destruct (first_match_new_feed k c (mk_stored o (patch ∪ {["_key" := VStr k]})))
      as [_ H]; [|done|by apply H].
    simpl. by rewrite (lookup_union_Some_l _ _ _ _ Hk).
Qed.

Lemma feed_count_snoc k c d :
  feed_count k (c ++ [d])%list
  = (feed_count k c
     + if bool_decide (doc_fields d !! "_key" = Some (VStr k)) then 1 else 0)%nat.
Proof.
  unfold feed_count. rewrite filter_app, length_app. f_equal.
  rewrite filter_cons, filter_nil. by case_decide; case_bool_decide.
Qed.

Lemma first_match_None_count k c :
  first_match {["_key" := VStr k]} c = None → feed_count k c = 0%nat.
Proof.
  unfold feed_count. induction c as [|x c IH]; simpl; [done|].
  rewrite doc_matches_key. rewrite filter_cons.
  case_bool_decide; [done|]. intros Hc. case_decide; [done|]. by apply IH.
Qed.

(** Patching the first feed of a key changes no count. *)
Lemma set_first_count k k' patch c c' :
  patch !! "_key" = Some (VStr k) →
  set_first {["_key" := VStr k]} patch c = Some c' →
  feed_count k' c' = feed_count k' c.
Proof.
  intros Hk. unfold feed_count. revert c'.
  induction c as [|x c IH]; intros c'; simpl; [done|].
  rewrite doc_matches_key. case_bool_decide as Hx.
  - intros [= <-]. rewrite !filter_cons. simpl.
    rewrite (lookup_union_Some_l _ _ _ _ Hk), Hx.
    by destruct (decide (Some (VStr k) = Some (VStr k'))).
  - destruct (set_first _ patch c) as [c0|]; simpl; [|done].
    intros [= <-]. rewrite !filter_cons.
    case_decide; simpl; by rewrite (IH c0).
Qed.
End upsert.

(** ** What each request does to the feeds *)

Section feeds.
Implicit Types (w : world) (b : Booking) (t n : Z) (k : string).

Lemma docs_of_db_None (name : string) w : db w = None → docs_of name w = [].
Proof. unfold docs_of. by intros ->. Qed.

Lemma write_feed_tokenfeed b t w :
  is_Some (db w) →
  docs_of "tokenfeed" (write_feed b t w)
  = default
      (docs_of "tokenfeed" w
         ++ [mk_stored (mk_oid (next_oid w))
               (booking_patch b t ∪ {["_key" := VStr (booking_key b)]})])%list
      (set_first {["_key" := VStr (booking_key b)]} (booking_patch b t)
         (docs_of "tokenfeed" w)).
Proof.
  intros H. unfold write_feed.
  destruct (set_first _ _ _); by rewrite docs_of_set_docs.
Qed.

Lemma set_current_tokenfeed (u : TokenUpdate) w :
  is_Some (db w) →
  docs_of "tokenfeed" (set_current u w)
  = default
      (docs_of "tokenfeed" w
         ++ [mk_stored (mk_oid (next_oid w))
               (update_patch u ∪ {["_key" := VStr (update_key u)]})])%list
      (set_first {["_key" := VStr (update_key u)]} (update_patch u)
         (docs_of "tokenfeed" w)).
Proof.
  intros H. unfold set_current.
  destruct (set_first _ _ _); by rewrite docs_of_set_docs.
Qed.

Lemma write_feed_db_None b t w (name : string) :
  db w = None → docs_of name (write_feed b t w) = [].
Proof.
  intros H. apply docs_of_db_None. unfold write_feed.
  destruct (set_first _ _ _); simpl; by rewrite H.
Qed.

Lemma set_current_db_None (u : TokenUpdate) w (name : string) :
  db w = None → docs_of name (set_current u w) = [].
Proof.
  intros H. apply docs_of_db_None. unfold set_current.
  destruct (set_first _ _ _); simpl; by rewrite H.
Qed.

(** The feed write leaves every field but its own four as it is, for every
    key. *)
Lemma write_feed_keeps_field b t w k (field : string) :
  booking_patch b t !! field = None →
  (feed_at (write_feed b t w) k ≫= λ d, doc_fields d !! field)
  = (feed_at w k ≫= λ d, doc_fields d !! field).
Proof.
  intros Hf. destruct (db w) as [cs|] eqn:Hdb.
  2:{ unfold feed_at. by rewrite write_feed_db_None, docs_of_db_None. }
  destruct (decide (k = booking_key b)) as [->|Hk].
  - unfold feed_at. rewrite write_feed_tokenfeed by eauto.
    by apply upsert_keeps_field; [apply booking_patch_key|].
  - by rewrite write_feed_other_key.
Qed.

Lemma set_current_other_key (u : TokenUpdate) w k :
  k ≠ update_key u → feed_at (set_current u w) k = feed_at w k.
Proof.
  intros Hk. destruct (db w) as [cs|] eqn:Hdb.
  2:{ unfold feed_at. by rewrite set_current_db_None, docs_of_db_None. }
  unfold feed_at. rewrite set_current_tokenfeed by eauto.
  by apply upsert_other_key; [apply update_patch_key|].
Qed.

Lemma set_current_keeps_field (u : TokenUpdate) w k (field : string) :
  update_patch u !! field = None →
  (feed_at (set_current u w) k ≫= λ d, doc_fields d !! field)
  = (feed_at w k ≫= λ d, doc_fields d !! field).
Proof.
  intros Hf. destruct (db w) as [cs|] eqn:Hdb.
  2:{ unfold feed_at. by rewrite set_current_db_None, docs_of_db_None. }
  destruct (decide (k = update_key u)) as [->|Hk].
  - unfold feed_at. rewrite set_current_tokenfeed by eauto.
    by apply upsert_keeps_field; [apply update_patch_key|].
  - by rewrite set_current_other_key.
Qed.

Lemma set_current_docs (u : TokenUpdate) w (name : string) :
  name ≠ "tokenfeed" → docs_of name (set_current u w) = docs_of name w.
Proof.
  intros Hn. unfold set_current.
  destruct (set_first _ _ _); by rewrite docs_of_set_docs_ne.
Qed.

Lemma int_field_raw (field : string) (o : option stored) :
  (o ≫= int_field field)
  = ((o ≫= λ d, doc_fields d !! field)
     ≫= λ v, match v with VInt n => Some n | _ => None end).
Proof.
  destruct o as [d|]; simpl; [|done]. unfold int_field.
  by destruct (doc_fields d !! field) as [[]|].
Qed.

Lemma next_token_for_raw w k :
  next_token_for w k
  = match feed_at w k ≫= λ d, doc_fields d !! "last_token" with
    | None => Some 1
    | Some (VInt n) => Some (n + 1)
    | Some _ => None
    end.
Proof. unfold next_token_for. by destruct (feed_at w k). Qed.

(** The world a request ends in holds the feeds of one of four worlds. *)
Lemma book_appointment_feeds now b w :
  let w' := (book_appointment now b w).2 in
  (∀ k, feed_at w' k = feed_at w k)
  ∨ ∃ t, next_token_for w (booking_key b) = Some t
       ∧ ∀ k, feed_at w' k = feed_at (write_feed b t (tick_world w)) k.
Proof.
  cbv zeta. rewrite book_appointment_run.
  destruct (ObjectId_is_valid (doctor_id b)); [|by left].
  destruct (call_ok w); [|by left].
  destruct (next_token_for w (booking_key b)) as [t|]; [|by left].
  cbv zeta. destruct (call_ok (tick_world w)); [|by left].
  right. exists t. split; [done|]. intros k.
  destruct (call_ok (write_feed b t (tick_world w))); simpl; [|done].
  by rewrite insert_booking_feed.
Qed.

Lemma update_token_world (u : TokenUpdate) w :
  (update_token u w).2 = w ∨ (update_token u w).2 = set_current u w.
Proof. rewrite update_token_run. destruct (call_ok w); auto. Qed.

Lemma token_status_feeds (d dk : string) w (name : string) :
  docs_of name (token_status d dk w).2 = docs_of name w.
Proof. rewrite token_status_run. by destruct (call_ok w). Qed.
End feeds.

(** ** Requests of any kind, one after another *)

Section traffic.
Implicit Types (w : world) (b : Booking) (t n : Z) (k : string) (r : request).

Lemma set_first_None_inv (flt patch : dict) (c : collection) :
  set_first flt patch c = None → first_match flt c = None.
Proof.
  induction c as [|x c IH]; simpl; [done|].
  destruct (doc_matches flt x); [done|].
  destruct (set_first flt patch c); [done|]. auto.
Qed.

(** An upsert under a key keeps every key at one feed at most. *)
Lemma upsert_unique k (patch : dict) (c : collection) (o : ObjectId) :
  patch !! "_key" = Some (VStr k) →
  (∀ k', feed_count k' c ≤ 1)%nat →
  ∀ k',
    (feed_count k'
       (default (c ++ [mk_stored o (patch ∪ {["_key" := VStr k]})])%list
          (set_first {["_key" := VStr k]} patch c)) ≤ 1)%nat.
Proof.
  intros Hk Hc k'.
  destruct (set_first {["_key" := VStr k]} patch c) as [c'|] eqn:E; simpl.
  - by rewrite (set_first_count _ _ _ _ _ Hk E).
  - rewrite feed_count_snoc. simpl.
    rewrite (lookup_union_Some_l _ _ _ _ Hk).
    case_bool_decide as Hkk; [|specialize (Hc k'); lia].
    injection Hkk as <-.
    rewrite (first_match_None_count _ _ (set_first_None_inv _ _ _ E)). lia.
Qed.

Lemma book_appointment_tokenfeed now b w :
  let w' := (book_appointment now b w).2 in
  docs_of "tokenfeed" w' = docs_of "tokenfeed" w
  ∨ ∃ t, is_Some (db w)
       ∧ docs_of "tokenfeed" w'
         = docs_of "tokenfeed" (write_feed b t (tick_world w)).
Proof.
  cbv zeta. rewrite book_appointment_run.
  destruct (ObjectId_is_valid (doctor_id b)); [|by left].
  destruct (call_ok w) eqn:Hw; [|by left].
  destruct (next_token_for w (booking_key b)) as [t|]; [|by left].
  cbv zeta. destruct (call_ok (tick_world w)); [|by left].
  right. exists t. split; [by apply call_ok_db|].
  destruct (call_ok (write_feed b t (tick_world w))); simpl; [|done].
  unfold insert_booking. by rewrite docs_of_set_docs_ne.
Qed.

Lemma book_appointment_bookings now b w :
  ∃ l, docs_of "booking" (book_appointment now b w).2
       = (docs_of "booking" w ++ l)%list.
Proof.
  rewrite book_appointment_run.
  destruct (ObjectId_is_valid (doctor_id b));
    [|by exists []; rewrite app_nil_r].
  destruct (call_ok w) eqn:Hw; [|by exists []; rewrite app_nil_r].
  destruct (next_token_for w (booking_key b)) as [t|];
    [|by exists []; rewrite app_nil_r].
  cbv zeta. destruct (call_ok (tick_world w)) eqn:Hw1;
    [|by exists []; rewrite app_nil_r].
  assert (is_Some (db (tick_world w))) as Hdb by by apply call_ok_db.
  destruct (call_ok (write_feed b t (tick_world w))); simpl.
  - eexists. rewrite insert_booking_docs by by apply write_feed_db.
    by rewrite write_feed_docs, docs_of_tick.
  - exists []. by rewrite app_nil_r, write_feed_docs, docs_of_tick.
Qed.

Lemma feed_at_is_Some_db w k (d : stored) : feed_at w k = Some d → is_Some (db w).
Proof.
  unfold feed_at, docs_of. destruct (db w); [eauto|done].
Qed.

(** One request raises the [last_token] of a key by one or leaves it. *)
Lemma handle_last_token_step r w k n :
  last_token_at w k = Some n →
  last_token_at (handle r w).2 k = Some n
  ∨ last_token_at (handle r w).2 k = Some (n + 1).
Proof.
  intros Hn. destruct r as [now b|u|d dk]; simpl.
  - destruct (book_appointment_feeds now b w) as [H|(t & Ht & H)];
      unfold last_token_at; rewrite H; [by left|].
    destruct (decide (k = booking_key b)) as [->|Hk].
    + right. fold (last_token_at (write_feed b t (tick_world w)) (booking_key b)).
      rewrite write_feed_last_token.
      * rewrite (next_token_after _ _ _ Hn) in Ht. congruence.
      * unfold last_token_at in Hn.
        destruct (feed_at w (booking_key b)) as [d|] eqn:E; [|done].
        exact (feed_at_is_Some_db w _ d E).
    + left. by rewrite write_feed_other_key.
  - left. destruct (update_token_world u w) as [->| ->]; [done|].
    unfold last_token_at in *. rewrite int_field_raw in *.
    by rewrite set_current_keeps_field.
  - left. unfold last_token_at, feed_at in *. by rewrite token_status_feeds.
Qed.

Lemma handle_bookings r w :
  ∃ l, docs_of "booking" (handle r w).2 = (docs_of "booking" w ++ l)%list.
Proof.
  destruct r as [now b|u|d dk]; simpl.
  - apply book_appointment_bookings.
  - exists []. rewrite app_nil_r.
    destruct (update_token_world u w) as [->| ->]; [done|].
    by apply set_current_docs.
  - exists []. by rewrite app_nil_r, token_status_feeds.
Qed.

Lemma handle_feeds_unique r w : feeds_unique w → feeds_unique (handle r w).2.
Proof.
  intros Hu. destruct r as [now b|u|d dk]; simpl.
  - destruct (book_appointment_tokenfeed now b w) as [H|(t & Hdb & H)];
      unfold feeds_unique; rewrite H; [done|].
    rewrite write_feed_tokenfeed by done.
    apply upsert_unique; [apply booking_patch_key|done].
  - destruct (update_token_world u w) as [->| ->]; [done|].
    destruct (db w) as [cs|] eqn:Hdb.
    + unfold feeds_unique. rewrite set_current_tokenfeed by eauto.
      apply upsert_unique; [apply update_patch_key|done].
    + unfold feeds_unique. rewrite set_current_db_None by done.
      intros k. unfold feed_count. simpl. lia.
  - unfold feeds_unique. by rewrite token_status_feeds.
Qed.

Lemma run_world_cons r rs w : (run (r :: rs) w).2 = (run rs (handle r w).2).2.
Proof. by rewrite run_cons, serve_world. Qed.

Lemma up_handle r w : up w → up (handle r w).2.
Proof.
  intros Hup. destruct r as [now b|u|d dk]; simpl.
  - rewrite book_appointment_run.
    destruct (ObjectId_is_valid (doctor_id b)); [|done].
    rewrite (up_call_ok w Hup), (up_tick w Hup).
    destruct (next_token_for w (booking_key b)) as [t|]; [|done].
    cbv zeta. rewrite (up_call_ok w Hup).
    pose proof (up_write_feed b t w Hup) as Hup'.
    rewrite (up_call_ok _ Hup'). by apply up_insert_booking.
  - rewrite update_token_run, (up_call_ok w Hup). by apply up_set_current.
  - rewrite token_status_run, (up_call_ok w Hup). by rewrite (up_tick w Hup).
Qed.

Lemma token_status_up (d dk : string) w : up w → (token_status d dk w).2 = w.
Proof.
  intros Hup. rewrite token_status_run, (up_call_ok w Hup).
  by rewrite (up_tick w Hup).
Qed.

(** A request that does not draw from a key leaves the token the key hands
    out next as it is. *)
Lemma handle_next_token_other r w k :
  draws_from k r = false →
  next_token_for (handle r w).2 k = next_token_for w k.
Proof.
  intros Hd. destruct r as [now b|u|d dk]; simpl in *.
  - destruct (ObjectId_is_valid (doctor_id b)) eqn:Hv; simpl in Hd.
    + apply bool_decide_eq_false_1 in Hd.
      unfold next_token_for. rewrite book_appointment_other_key; [done|].
      congruence.
    + rewrite book_appointment_run. by rewrite Hv.
  - destruct (update_token_world u w) as [->| ->]; [done|].
    rewrite !next_token_for_raw. by rewrite set_current_keeps_field.
  - unfold next_token_for, feed_at. by rewrite token_status_feeds.
Qed.
End traffic.

(** ** Properties of the token feed beyond the specification *)

(** X1. Counter and pointer are independent.  However a booking ends and
    in whatever store, it leaves the [current_token] of every key as it
    was; however a pointer update ends, it leaves the [last_token] of every
    key and the booking records as they were. *)
Theorem counter_and_pointer_independent (now : datetime) (b : Booking)
    (u : TokenUpdate) (w : world) (k : string) :
  current_token_at (serve (book_appointment now b) w).2 k = current_token_at w k
  ∧ last_token_at (serve (update_token u) w).2 k = last_token_at w k
  ∧ docs_of "booking" (serve (update_token u) w).2 = docs_of "booking" w.
Proof.
  rewrite !serve_world. split; [|split].
  - unfold current_token_at. rewrite !int_field_raw.
    destruct (book_appointment_feeds now b w) as [H|(t & _ & H)];
      rewrite H; [done|].
    rewrite write_feed_keeps_field; done.
  - destruct (update_token_world u w) as [->| ->]; [done|].
    unfold last_token_at. rewrite !int_field_raw.
    by rewrite set_current_keeps_field.
  - destruct (update_token_world u w) as [->| ->]; [done|].
    by apply set_current_docs.
Qed.

(** X2. The counter only grows.  Over any sequence of bookings, pointer
    updates and status queries, in any store and whatever fails on the
    way, a stored [last_token = n] ends as some [m] with n <= m, and each
    request adds at most one. *)
Theorem last_token_never_decreases (rs : list request) (w : world)
    (k : string) (n : Z) :
  last_token_at w k = Some n →
  ∃ m, n <= m <= n + Z.of_nat (List.length rs)
       ∧ last_token_at (run rs w).2 k = Some m.
Proof.
  revert w n. induction rs as [|r rs IH]; intros w n Hn.
  - exists n. simpl. split; [lia|done].
  - rewrite run_world_cons.
    destruct (handle_last_token_step r w k n Hn) as [H|H];
      destruct (IH _ _ H) as (m & Hm & Hl); exists m;
      (split; [simpl List.length; lia|done]).
Qed.

Lemma last_token_never_decreases_witness :
  let w := (run [PostBookings clock0 booking1] empty_world).2 in
  let rs := [PostTokenUpdate (mk_TokenUpdate doctor1 "2024-06-01" 9);
             PostBookings clock0 booking2; PostBookings clock0 booking_bad;
             GetTokenStatus doctor1 "2024-06-01"] in
  last_token_at w (booking_key booking1) = Some 1
  ∧ ∃ m, 1 <= m <= 1 + Z.of_nat (List.length rs)
         ∧ last_token_at (run rs w).2 (booking_key booking1) = Some m.
Proof.
  split; [vm_compute; reflexivity|].
  apply (last_token_never_decreases
           [PostTokenUpdate (mk_TokenUpdate doctor1 "2024-06-01" 9);
            PostBookings clock0 booking2; PostBookings clock0 booking_bad;
            GetTokenStatus doctor1 "2024-06-01"]
           (run [PostBookings clock0 booking1] empty_world).2
           (booking_key booking1) 1).
  vm_compute. reflexivity.
Defined.

(** X3. Booking records are append-only.  Over any sequence of requests,
    in any store, the booking collection at the end starts with the
    booking collection at the start, document for document: no request
    edits or removes a stored booking or its token. *)
Theorem booking_records_append_only (rs : list request) (w : world) :
  docs_of "booking" w `prefix_of` docs_of "booking" (run rs w).2.
Proof.
  revert w. induction rs as [|r rs IH]; intros w; [done|].
  rewrite run_world_cons.
  destruct (handle_bookings r w) as [l Hl].
  etrans; [|apply IH]. rewrite Hl. by apply prefix_app_r.
Qed.

(** X4. One feed per key.  If no key has two feed documents, then after
    any sequence of requests, whatever fails on the way, no key has two
    feed documents. *)
Theorem one_feed_per_key (rs : list request) (w : world) :
  feeds_unique w → feeds_unique (run rs w).2.
Proof.
  revert w. induction rs as [|r rs IH]; intros w Hu; [done|].
  rewrite run_world_cons. by apply IH, handle_feeds_unique.
Qed.

Lemma feeds_unique_empty_world : feeds_unique empty_world.
Proof. intros k. vm_compute. lia. Defined.

Lemma one_feed_per_key_witness :
  feeds_unique
    (run [PostBookings clock0 booking1; PostBookings clock0 booking2;
          PostTokenUpdate (mk_TokenUpdate doctor1 "2024-06-01" 3)]
       empty_world).2.
Proof.
  apply (one_feed_per_key
           [PostBookings clock0 booking1; PostBookings clock0 booking2;
            PostTokenUpdate (mk_TokenUpdate doctor1 "2024-06-01" 3)]
           empty_world).
  exact feeds_unique_empty_world.
Defined.

Lemma run_pair (rs : list request) (w : world) :
  run rs w = ((run rs w).1, (run rs w).2).
Proof. by destruct (run rs w). Qed.

(** X5. Status queries are invisible.  In a store that is up, dropping the
    status queries from a sequence of requests changes neither the answers
    to the other requests nor the store the sequence ends in. *)
Theorem status_queries_invisible (rs : list request) (w : world) :
  up w →
  run (filter (λ r, is_status_query r = false) rs) w
  = (other_answers rs (run rs w).1, (run rs w).2).
Proof.
  revert w. induction rs as [|r rs IH]; intros w Hup; [done|].
  rewrite run_cons. cbn [fst snd other_answers]. rewrite filter_cons.
  destruct (is_status_query r) eqn:Hr.
  - rewrite decide_False by done.
    destruct r as [| |d dk]; try done. simpl handle.
    rewrite serve_world, (token_status_up d dk w Hup). by apply IH.
  - rewrite decide_True by done. rewrite run_cons. cbn [fst snd].
    rewrite IH; [done|]. rewrite serve_world. by apply up_handle.
Qed.

Lemma status_queries_invisible_witness :
  let rs := [GetTokenStatus doctor1 "2024-06-01"; PostBookings clock0 booking1;
             GetTokenStatus doctor1 "2024-06-01"; PostBookings clock0 booking2] in
  run [PostBookings clock0 booking1; PostBookings clock0 booking2] empty_world
  = (other_answers rs (run rs empty_world).1, (run rs empty_world).2).
Proof.
  apply (status_queries_invisible
           [GetTokenStatus doctor1 "2024-06-01"; PostBookings clock0 booking1;
            GetTokenStatus doctor1 "2024-06-01"; PostBookings clock0 booking2]
           empty_world).
  exact up_empty_world.
Defined.

Lemma tokens_drawn_from (k : string) (rs : list request) :
  ∀ w n,
    up w →
    next_token_for w k = Some (n + 1) →
    tokens_drawn k rs (run rs w).1
    = (λ i : nat, Some (n + Z.of_nat i))
        <$> seq 1 (List.length (filter (λ r, draws_from k r = true) rs)).
Proof.
  induction rs as [|r rs IH]; intros w n Hup Hn; [done|].
  rewrite run_cons. cbn [fst snd tokens_drawn]. rewrite filter_cons.
  destruct (draws_from k r) eqn:Hd.
  - rewrite decide_True by done.
    destruct r as [now b| |]; try done. simpl in Hd.
    apply andb_prop in Hd as [Hv Hk]. apply bool_decide_eq_true_1 in Hk.
    subst k. simpl handle.
    rewrite (serve_book_appointment_up now b w (n + 1) Hup Hv Hn).
    cbn [fst snd]. rewrite response_token_answer.
    set (w1 := insert_booking now b (n + 1) (write_feed b (n + 1) w)).
    assert (up w1) as Hup1
      by (apply up_insert_booking; by apply up_write_feed).
    assert (last_token_at w1 (booking_key b) = Some (n + 1)) as Hl
      by (apply booked_last_token; by destruct Hup).
    rewrite (IH w1 (n + 1) Hup1 (next_token_after _ _ _ Hl)).
    simpl List.length. rewrite <- cons_seq, fmap_cons. f_equal.
    apply fmap_seq_shift. intros i. f_equal. lia.
  - rewrite decide_False by done.
    rewrite serve_world. apply IH; [by apply up_handle|].
    by rewrite handle_next_token_other.
Qed.

(** X6. Tokens stay consecutive in mixed traffic.  In a store that is up
    and has no feed for a key, take any sequence of requests: bookings for
    this and other keys, rejected bookings, pointer updates, status
    queries.  The bookings that pass the doctor-id check and draw from the
    key are answered 1, 2, 3, ... in call order, with no gap and no
    repeat. *)
Theorem mixed_traffic_tokens (k : string) (rs : list request) (w : world) :
  up w →
  feed_at w k = None →
  tokens_drawn k rs (run rs w).1
  = (λ i : nat, Some (Z.of_nat i))
      <$> seq 1 (List.length (filter (λ r, draws_from k r = true) rs)).
Proof.
  intros Hup Habs.
  apply (tokens_drawn_from k rs w 0 Hup (next_token_absent _ _ Habs)).
Qed.

Lemma mixed_traffic_tokens_witness :
  let rs := [PostBookings clock0 booking3; PostBookings clock0 booking1;
             PostTokenUpdate (mk_TokenUpdate doctor1 "2024-06-01" 7);
             PostBookings clock0 booking_bad; PostBookings clock0 booking2;
             GetTokenStatus doctor1 "2024-06-01"; PostBookings clock0 booking4] in
  tokens_drawn (booking_key booking1) rs (run rs empty_world).1
  = [Some 1; Some 2; Some 3].
Proof.
  apply (mixed_traffic_tokens (booking_key booking1)
           [PostBookings clock0 booking3; PostBookings clock0 booking1;
            PostTokenUpdate (mk_TokenUpdate doctor1 "2024-06-01" 7);
            PostBookings clock0 booking_bad; PostBookings clock0 booking2;
            GetTokenStatus doctor1 "2024-06-01"; PostBookings clock0 booking4]
           empty_world).
  - exact up_empty_world.
  - vm_compute. reflexivity.
Defined.

(** X7. An unavailable store.  With the database not configured, or the
    connection lost, a booking with a well-formed doctor id, a pointer
    update and a status query are each answered 500 and change nothing;
    a booking with a malformed doctor id is still answered 400. *)
Theorem store_unavailable (now : datetime) (b : Booking) (u : TokenUpdate)
    (d dk : string) (w : world) :
  call_ok w = false →
  serve (book_appointment now b) w
  = (if ObjectId_is_valid (doctor_id b)
     then ErrorResponse 500 "Internal Server Error"
     else ErrorResponse 400 "Invalid doctor id", w)
  ∧ serve (update_token u) w = (ErrorResponse 500 "Internal Server Error", w)
  ∧ serve (token_status d dk) w = (ErrorResponse 500 "Internal Server Error", w).
Proof.
  intros Hw. unfold serve.
  rewrite book_appointment_run, update_token_run, token_status_run, Hw.
  assert (error_response (call_exn w)
          = ErrorResponse 500 "Internal Server Error") as He
    by (unfold call_exn; by destruct (db w)).
  destruct (ObjectId_is_valid (doctor_id b)); by rewrite ?He.
Qed.

Lemma store_unavailable_witness :
  let w := mk_world None 0 None in
  serve (book_appointment clock0 booking1) w
  = (ErrorResponse 500 "Internal Server Error", w)
  ∧ serve (update_token (mk_TokenUpdate doctor1 "2024-06-01" 3)) w
    = (ErrorResponse 500 "Internal Server Error", w)
  ∧ serve (token_status doctor1 "2024-06-01") w
    = (ErrorResponse 500 "Internal Server Error", w).
Proof.
  apply (store_unavailable clock0 booking1
           (mk_TokenUpdate doctor1 "2024-06-01" 3) doctor1 "2024-06-01"
           (mk_world None 0 None)).
  reflexivity.
Defined.

Section other_collections.
Implicit Types (w : world) (b : Booking) (t : Z) (name : string) (c : collection).

Lemma set_docs_commute name1 name2 (c1 c2 : collection) w :
  name1 ≠ name2 →
  set_docs name1 c1 (set_docs name2 c2 w) = set_docs name2 c2 (set_docs name1 c1 w).
Proof.
  intros Hn. unfold set_docs. simpl. destruct (db w) as [cs|]; simpl; [|done].
  by rewrite insert_insert_ne.
Qed.

Lemma call_ok_set_docs name c w : call_ok (set_docs name c w) = call_ok w.
Proof. unfold call_ok, set_docs. simpl. by destruct (db w). Qed.

Lemma call_exn_set_docs name c w : call_exn (set_docs name c w) = call_exn w.
Proof. unfold call_exn, set_docs. simpl. by destruct (db w). Qed.

Lemma next_token_for_set_docs name c w (k : string) :
  name ≠ "tokenfeed" →
  next_token_for (set_docs name c w) k = next_token_for w k.
Proof.
  intros Hn. unfold next_token_for, feed_at. by rewrite docs_of_set_docs_ne.
Qed.

Lemma write_feed_set_docs name c b t w :
  name ≠ "tokenfeed" →
  write_feed b t (set_docs name c w) = set_docs name c (write_feed b t w).
Proof.
  intros Hn. unfold write_feed. rewrite docs_of_set_docs_ne by done.
  assert ("tokenfeed" ≠ name) as Hn' by done.
  destruct (set_first _ _ _) as [l|].
  - exact (set_docs_commute "tokenfeed" name l c (tick_world w) Hn').
  - exact (set_docs_commute "tokenfeed" name _ c (bump_oid (tick_world w)) Hn').
Qed.

Lemma insert_booking_set_docs name c now b t w :
  name ≠ "booking" →
  insert_booking now b t (set_docs name c w)
  = set_docs name c (insert_booking now b t w).
Proof.
  intros Hn. unfold insert_booking. rewrite docs_of_set_docs_ne by done.
  assert ("booking" ≠ name) as Hn' by done.
  exact (set_docs_commute "booking" name _ c (bump_oid (tick_world w)) Hn').
Qed.

(** A booking commutes with any change to a collection other than the
    two it works on. *)
Lemma book_appointment_set_docs name c now b w :
  name ≠ "tokenfeed" → name ≠ "booking" →
  book_appointment now b (set_docs name c w)
  = ((book_appointment now b w).1, set_docs name c (book_appointment now b w).2).
Proof.
  intros H1 H2. rewrite !book_appointment_run.
  destruct (ObjectId_is_valid (doctor_id b)); [|done].
  rewrite call_ok_set_docs, call_exn_set_docs.
  destruct (call_ok w); [|done].
  rewrite next_token_for_set_docs by done.
  destruct (next_token_for w (booking_key b)) as [t|]; [|done].
  cbv zeta. change (tick_world (set_docs name c w))
    with (set_docs name c (tick_world w)).
  rewrite call_ok_set_docs, call_exn_set_docs.
  destruct (call_ok (tick_world w)); [|done].
  rewrite write_feed_set_docs by done. rewrite call_ok_set_docs.
  destruct (call_ok (write_feed b t (tick_world w))); [|done].
  by rewrite insert_booking_set_docs.
Qed.
End other_collections.

(** X8. A booking never looks the doctor up.  Replacing the [doctor]
    collection by any other, also an empty one, changes neither the
    answer to a booking nor what it does to the store: the booking
    commutes with the replacement. *)
Theorem no_doctor_lookup (doctors : collection) (now : datetime) (b : Booking)
    (w : world) :
  serve (book_appointment now b) (set_docs "doctor" doctors w)
  = ((serve (book_appointment now b) w).1,
     set_docs "doctor" doctors (serve (book_appointment now b) w).2).
Proof.
  unfold serve. rewrite book_appointment_set_docs by done.
  by destruct (book_appointment now b w) as [[e|body] w'].
Qed.

(** * Further properties: ids, users, doctors, karma *)

(** ** Identifiers as strings *)

Section identifiers.

Lemma hex_digit_value (n : nat) :
  (n < 16)%nat →
  hex_value (hex_digit (N.of_nat n)) = Some (N.of_nat n)
  ∧ is_hex (hex_digit (N.of_nat n)) = true.
Proof.
  intros H. do 16 (destruct n as [|n]; [by vm_compute|]). lia.
Qed.

Lemma hex_value_digit (d : N) :
  (d < 16)%N → hex_value (hex_digit d) = Some d.
Proof.
  intros H. rewrite <- (N2Nat.id d). apply hex_digit_value. lia.
Qed.

Lemma is_hex_digit (d : N) : (d < 16)%N → is_hex (hex_digit d) = true.
Proof.
  intros H. rewrite <- (N2Nat.id d). apply hex_digit_value. lia.
Qed.

Lemma all_hex_hex_of (k : nat) (n : N) (s : string) :
  all_hex (hex_of k n s) = all_hex s.
Proof.
  revert n s. induction k as [|k IH]; intros n s; simpl; [done|].
  rewrite IH. simpl. rewrite is_hex_digit; [done|].
  apply N.mod_lt. done.
Qed.

Lemma length_hex_of (k : nat) (n : N) (s : string) :
  String.length (hex_of k n s) = (k + String.length s)%nat.
Proof.
  revert n s. induction k as [|k IH]; intros n s; simpl; [done|].
  rewrite IH. simpl. lia.
Qed.

Lemma hex_parse_hex_of (k : nat) (n : N) (s : string) (a : N) :
  hex_parse (hex_of k n s) a
  = hex_parse s (a * 16 ^ N.of_nat k + n mod 16 ^ N.of_nat k)%N.
Proof.
  revert n s a. induction k as [|k IH]; intros n s a.
  - simpl. f_equal. rewrite N.mod_1_r. lia.
  - cbn [hex_of]. rewrite IH. cbn [hex_parse].
    rewrite hex_value_digit by (apply N.mod_lt; done).
    f_equal. rewrite Nat2N.inj_succ, N.pow_succ_r'.
    rewrite (N.Div0.mod_mul_r n 16 (16 ^ N.of_nat k)). lia.
Qed.

(** Every id the store hands out is a well-formed id string. *)
Lemma ObjectId_str_valid (i : ObjectId) :
  ObjectId_is_valid (ObjectId_str i) = true.
Proof.
  unfold ObjectId_is_valid, ObjectId_str.
  by rewrite length_hex_of, all_hex_hex_of.
Qed.

(** Reading back the string of an id gives the id. *)
Lemma ObjectId_of_str_str (i : ObjectId) :
  (oid_binary i < 2 ^ 96)%N → ObjectId_of_str (ObjectId_str i) = Some i.
Proof.
  intros H. unfold ObjectId_of_str. rewrite ObjectId_str_valid.
  unfold ObjectId_str. rewrite hex_parse_hex_of. simpl hex_parse.
  change (16 ^ N.of_nat 24)%N with (2 ^ 96)%N.
  rewrite N.mod_small by done. simpl. by destruct i.
Qed.

Lemma ObjectId_of_str_valid (s : string) (i : ObjectId) :
  ObjectId_of_str s = Some i → ObjectId_is_valid s = true.
Proof. unfold ObjectId_of_str. by destruct (ObjectId_is_valid s). Qed.

Lemma ObjectId_of_str_invalid (s : string) :
  ObjectId_is_valid s = false → ObjectId_of_str s = None.
Proof. unfold ObjectId_of_str. by intros ->. Qed.
End identifiers.

(** ** Looking documents up by id and by query *)

Section lookup.
Implicit Types (w : world) (c : collection) (d : stored) (i j : ObjectId)
  (name : string) (flt patch : dict).

Lemma doc_matches_id i d :
  doc_matches {["_id" := VId i]} d = bool_decide (doc_id d = i).
Proof.
  unfold doc_matches, to_dict. apply bool_decide_ext.
  rewrite map_Forall_singleton, lookup_insert_eq. split; congruence.
Qed.

Lemma first_match_id_Some i c d :
  first_match {["_id" := VId i]} c = Some d → doc_id d = i ∧ d ∈ c.
Proof.
  induction c as [|x c IH]; simpl; [done|]. rewrite doc_matches_id.
  case_bool_decide.
  - intros [= <-]. split; [done|]. by left.
  - intros H'. destruct (IH H') as [? ?]. split; [done|]. by right.
Qed.

Lemma first_match_id_None i c :
  i ∉ doc_id <$> c → first_match {["_id" := VId i]} c = None.
Proof.
  induction c as [|x c IH]; simpl; [done|]. rewrite doc_matches_id.
  rewrite not_elem_of_cons. intros [Hx Hc].
  rewrite bool_decide_eq_false_2 by done. by apply IH.
Qed.

Lemma first_match_id_snoc i c (f : dict) :
  i ∉ doc_id <$> c →
  first_match {["_id" := VId i]} (c ++ [mk_stored i f])%list
  = Some (mk_stored i f).
Proof.
  intros H. rewrite first_match_snoc, (first_match_id_None _ _ H).
  rewrite doc_matches_id. simpl. by rewrite bool_decide_eq_true_2.
Qed.

Lemma first_match_id_snoc_ne i j c (f : dict) :
  j ≠ i →
  first_match {["_id" := VId j]} (c ++ [mk_stored i f])%list
  = first_match {["_id" := VId j]} c.
Proof.
  intros H. rewrite first_match_snoc, doc_matches_id. simpl.
  rewrite bool_decide_eq_false_2 by done.
  by destruct (first_match {["_id" := VId j]} c).
Qed.

(** Patching the document with a given id. *)
Lemma set_first_id i patch c d :
  first_match {["_id" := VId i]} c = Some d →
  ∃ c', set_first {["_id" := VId i]} patch c = Some c'
    ∧ first_match {["_id" := VId i]} c'
      = Some (mk_stored (doc_id d) (patch ∪ doc_fields d))
    ∧ (∀ j, j ≠ i →
         first_match {["_id" := VId j]} c' = first_match {["_id" := VId j]} c)
    ∧ doc_id <$> c' = doc_id <$> c.
Proof.
  induction c as [|x c IH]; simpl; [done|].
  rewrite doc_matches_id. case_bool_decide as Hx.
  - intros [= ->]. eexists; split; [done|]. simpl.
    rewrite !doc_matches_id. simpl. rewrite bool_decide_eq_true_2 by done.
    split; [done|]. split; [|done].
    intros j Hj. rewrite !doc_matches_id. simpl.
    rewrite !bool_decide_eq_false_2; congruence.
  - intros H. destruct (IH H) as (c' & -> & H1 & H2 & H3).
    eexists; split; [done|]. simpl. rewrite !doc_matches_id.
    rewrite bool_decide_eq_false_2 by done.
    split; [done|]. split; [|by f_equal].
    intros j Hj. by rewrite H2.
Qed.

Lemma set_first_ids flt patch c c' :
  set_first flt patch c = Some c' → doc_id <$> c' = doc_id <$> c.
Proof.
  revert c'. induction c as [|x c IH]; intros c'; simpl; [done|].
  destruct (doc_matches flt x).
  - by intros [= <-].
  - destruct (set_first flt patch c) as [c0|]; simpl; [|done].
    intros [= <-]. simpl. f_equal. by apply IH.
Qed.

Lemma stringify_to_dict d :
  stringify_id (to_dict d)
  = <["_id" := VStr (ObjectId_str (doc_id d))]> (doc_fields d).
Proof.
  unfold stringify_id, to_dict. rewrite lookup_insert_eq.
  by rewrite insert_insert_eq.
Qed.

Lemma field_matches_str (f : dict) (k s : string) :
  field_matches f k (VStr s) = bool_decide (f !! k = Some (VStr s)).
Proof. reflexivity. Qed.

Lemma query_matches_empty d : query_matches ∅ d = true.
Proof.
  unfold query_matches. apply bool_decide_eq_true_2, map_Forall_empty.
Qed.

Lemma query_matches_insert_str flt (k s : string) d :
  flt !! k = None → k ≠ "_id" →
  query_matches (<[k := VStr s]> flt) d
  = bool_decide (doc_fields d !! k = Some (VStr s)) && query_matches flt d.
Proof.
  intros Hk Hid. unfold query_matches.
  destruct (bool_decide (doc_fields d !! k = Some (VStr s))) eqn:E1;
    destruct (bool_decide (map_Forall _ flt)) eqn:E2; simpl.
  - apply bool_decide_eq_true_2. apply map_Forall_insert; [done|].
    apply bool_decide_eq_true_1 in E1, E2. split; [|done].
    rewrite field_matches_str. apply bool_decide_eq_true_2.
    unfold to_dict. by rewrite lookup_insert_ne.
  - apply bool_decide_eq_false_2. intros [_ H]%map_Forall_insert; [|done].
    by apply bool_decide_eq_false_1 in E2.
  - apply bool_decide_eq_false_2. intros [H _]%map_Forall_insert; [|done].
    apply bool_decide_eq_false_1 in E1. apply E1.
    rewrite field_matches_str in H. apply bool_decide_eq_true_1 in H.
    unfold to_dict in H. by rewrite lookup_insert_ne in H.
  - apply bool_decide_eq_false_2. intros [_ H]%map_Forall_insert; [|done].
    by apply bool_decide_eq_false_1 in E2.
Qed.
End lookup.

(** ** The helpers and endpoints, call by call *)

Section calls.
Implicit Types (w : world) (name : string) (i : ObjectId).

Lemma call_exn_db_Some w :
  is_Some (db w) → call_exn w = PyMongoError "connection lost".
Proof. intros [cs H]. unfold call_exn. by rewrite H. Qed.

Lemma get_documents_run name (filter_dict : option dict) (limit : option N) w :
  get_documents name filter_dict limit w
  = match db w with
    | None => (inl (Exception "Database not available. Check DATABASE_URL and DATABASE_NAME environment variables."), w)
    | Some _ =>
        if call_ok w then
          let flt := match filter_dict with
                     | Some f => if dict_truthy f then f else ∅
                     | None => ∅
                     end in
          let found := to_dict <$> filter (λ d, query_matches flt d = true)
                                     (docs_of name w) in
          (inr (stringify_id
                  <$> match limit with
                      | Some n =>
                          if int_truthy n then take (N.to_nat n) found
                          else found
                      | None => found
                      end),
           tick_world w)
        else (inl (PyMongoError "connection lost"), w)
    end.
Proof.
  unfold get_documents, coll_find, _ensure_db, bind, get_collection,
    round_trip, call_ok, docs_of, tick_world, ret.
  destruct w as [[cs|] o [[|n]|]]; simpl; try reflexivity;
    destruct limit as [l|]; simpl; try reflexivity;
    unfold int_truthy; destruct (l =? 0)%N eqn:E; simpl; try reflexivity;
    by rewrite ?E.
Qed.

Lemma get_document_by_id_run name (doc_id : string) w :
  get_document_by_id name doc_id w
  = match db w with
    | None => (inl (Exception "Database not available. Check DATABASE_URL and DATABASE_NAME environment variables."), w)
    | Some _ =>
        match ObjectId_of_str doc_id with
        | None => (inr None, w)
        | Some i =>
            if call_ok w
            then (inr (stringify_id ∘ to_dict <$> doc_by_id name i w),
                  tick_world w)
            else (inl (PyMongoError "connection lost"), w)
        end
    end.
Proof.
  unfold get_document_by_id, bind at 1, _ensure_db.
  destruct (db w) as [cs|] eqn:Hdb; [|done].
  destruct (ObjectId_of_str doc_id) as [i|]; [|done].
  unfold bind. rewrite coll_find_one_run.
  destruct (call_ok w); [|by rewrite call_exn_db_Some by eauto].
  unfold ret, doc_by_id.
  destruct (first_match _ (docs_of name w)) as [d|]; simpl; [|done].
  by rewrite dict_truthy_to_dict.
Qed.

Lemma create_user_run now (u : AppUser) w :
  create_user now u w
  = match db w with
    | None => (inl (Exception "Database not available. Check DATABASE_URL and DATABASE_NAME environment variables."), w)
    | Some _ =>
        if call_ok w
        then (inr {["id" := VStr (ObjectId_str (mk_oid (next_oid w)))]},
              set_docs "appuser"
                (docs_of "appuser" w
                   ++ [mk_stored (mk_oid (next_oid w))
                         (<["updated_at" := VDate now]>
                            (<["created_at" := VDate now]> (AppUser_dump u)))])
                (bump_oid (tick_world w)))
        else (inl (PyMongoError "connection lost"), w)
    end.
Proof.
  unfold create_user, bind. rewrite create_document_run.
  destruct (db w); [|done]. by destruct (call_ok w).
Qed.

Lemma add_doctor_run now (d : Doctor) w :
  add_doctor now d w
  = match db w with
    | None => (inl (Exception "Database not available. Check DATABASE_URL and DATABASE_NAME environment variables."), w)
    | Some _ =>
        if call_ok w
        then (inr {["id" := VStr (ObjectId_str (mk_oid (next_oid w)))]},
              set_docs "doctor"
                (docs_of "doctor" w
                   ++ [mk_stored (mk_oid (next_oid w))
                         (<["updated_at" := VDate now]>
                            (<["created_at" := VDate now]> (Doctor_dump d)))])
                (bump_oid (tick_world w)))
        else (inl (PyMongoError "connection lost"), w)
    end.
Proof.
  unfold add_doctor, bind. rewrite create_document_run.
  destruct (db w); [|done]. by destruct (call_ok w).
Qed.

(** Every way an award of karma can end. *)
Lemma award_karma_run (p : KarmaAward) w :
  award_karma p w
  = match ObjectId_of_str (ka_user_id p) with
    | None => (inl (HTTPException 400 "Invalid user id"), w)
    | Some i =>
        match db w with
        | None => (inl (TypeError "'NoneType' object is not subscriptable"), w)
        | Some _ =>
            if int64_ok (ka_points p) then
              if call_ok w then
                let flt : dict := {["_id" := VId i]} in
                let c := docs_of "appuser" w in
                match doc_by_id "appuser" i w with
                | None => (inl (HTTPException 404 "User not found"), tick_world w)
                | Some d =>
                    match doc_fields d !! "karma_points" with
                    | None =>
                        (inr {["status" := VStr "ok"]},
                         set_docs "appuser"
                           (default c
                              (set_first flt {["karma_points" := VInt (ka_points p)]} c))
                           (tick_world w))
                    | Some (VInt n) =>
                        if int64_ok (n + ka_points p) then
                          (inr {["status" := VStr "ok"]},
                           set_docs "appuser"
                             (default c
                                (set_first flt
                                   {["karma_points" := VInt (n + ka_points p)]} c))
                             (tick_world w))
                        else (inl (PyMongoError "Failed to apply $inc operations to current value"),
                              tick_world w)
                    | Some _ =>
                        (inl (PyMongoError "Cannot apply $inc to a value of non-numeric type"),
                         tick_world w)
                    end
                end
              else (inl (PyMongoError "connection lost"), w)
            else (inl (Exception "MongoDB can only handle up to 8-byte ints"), w)
        end
    end.
Proof.
  unfold award_karma, bind at 1.
  destruct (ObjectId_of_str (ka_user_id p)) as [i|]; [|done].
  unfold ret at 1. unfold coll_inc_by_id, bind, get_collection, round_trip,
    call_ok, doc_by_id, docs_of, tick_world, set_docs, put_collection, ret,
    raise.
  destruct w as [[cs|] o out]; simpl; [|done].
  destruct (int64_ok (ka_points p)); [|done].
  destruct out as [[|k]|]; simpl; try done;
    (destruct (first_match _ (default [] (cs !! "appuser"))) as [d|];
     simpl; [|done];
     destruct (doc_fields d !! "karma_points") as [[| n | | |]|]; simpl;
     try done; by destruct (int64_ok (n + ka_points p))).
Qed.
End calls.

(** ** Ids stay sound *)

Section ids.
Implicit Types (w : world) (name : string) (c : collection).

Lemma ids_sound_db_None w : db w = None → ids_sound w.
Proof.
  intros H name. rewrite (docs_of_db_None name w H). split; [done|].
  simpl. apply NoDup_nil_2.
Qed.

Lemma ids_sound_patch name c w :
  ids_sound w →
  doc_id <$> c = doc_id <$> docs_of name w →
  ids_sound (set_docs name c w).
Proof.
  intros Hs Hc. destruct (db w) as [cs|] eqn:Hdb.
  2:{ apply ids_sound_db_None. unfold set_docs. simpl. by rewrite Hdb. }
  intros name'. destruct (decide (name' = name)) as [->|Hn].
  - rewrite docs_of_set_docs by eauto. destruct (Hs name) as [H1 H2].
    rewrite Hc. split; [|done].
    apply (Forall_fmap doc_id (λ i, (oid_binary i < next_oid w)%N)).
    rewrite Hc. by apply Forall_fmap.
  - rewrite docs_of_set_docs_ne by done. apply Hs.
Qed.

Lemma ids_sound_bump w : ids_sound w → ids_sound (bump_oid w).
Proof.
  intros Hs name. destruct (Hs name) as [H1 H2]. split; [|done].
  eapply Forall_impl; [exact H1|]. simpl. intros d Hd. lia.
Qed.

Lemma ids_sound_append name (f : dict) w :
  ids_sound w →
  ids_sound
    (set_docs name (docs_of name w ++ [mk_stored (mk_oid (next_oid w)) f])%list
       (bump_oid w)).
Proof.
  intros Hs. destruct (db w) as [cs|] eqn:Hdb.
  2:{ apply ids_sound_db_None. unfold set_docs. simpl. by rewrite Hdb. }
  intros name'. destruct (decide (name' = name)) as [->|Hn].
  - rewrite docs_of_set_docs by (simpl; eauto). destruct (Hs name) as [H1 H2].
    split.
    + apply Forall_app. split.
      * eapply Forall_impl; [exact H1|]. simpl. intros d Hd. lia.
      * apply Forall_singleton. simpl. lia.
    + rewrite fmap_app. apply NoDup_app. split; [done|]. split.
      * intros i Hi. simpl. rewrite list_elem_of_singleton. intros ->.
        apply list_elem_of_fmap in Hi as (d & Hd & Hin).
        rewrite Forall_forall in H1. specialize (H1 d Hin).
        rewrite <- Hd in H1. simpl in H1. lia.
      * simpl. apply NoDup_singleton.
  - rewrite docs_of_set_docs_ne by done. by apply ids_sound_bump.
Qed.

Lemma ids_sound_write_feed (b : Booking) (t : Z) w :
  ids_sound w → ids_sound (write_feed b t w).
Proof.
  intros Hs. unfold write_feed.
  destruct (set_first _ _ (docs_of "tokenfeed" w)) as [c'|] eqn:E.
  - apply (ids_sound_patch "tokenfeed" c' (tick_world w) Hs).
    by apply set_first_ids in E.
  - exact (ids_sound_append "tokenfeed" _ (tick_world w) Hs).
Qed.




End ids.

(** ** Properties of the helpers of database.py *)

Lemma ids_sound_empty_world : ids_sound empty_world.
Proof.
  intros name. unfold docs_of. simpl. rewrite lookup_empty. simpl.
  split; [apply Forall_nil_2|apply NoDup_nil_2].
Defined.



Lemma fresh_id_not_stored (name : string) (w : world) :
  ids_sound w → mk_oid (next_oid w) ∉ doc_id <$> docs_of name w.
Proof.
  intros Hs Hin. destruct (Hs name) as [H1 _].
  apply list_elem_of_fmap in Hin as (d & Hd & Hin).
  rewrite Forall_forall in H1. specialize (H1 d Hin).
  rewrite <- Hd in H1. simpl in H1. lia.
Qed.

(** What [get_document_by_id] finds right after an insert of [f] under a
    fresh id. *)
Lemma inserted_found (name : string) (f : dict) (w : world) :
  up w → ids_sound w → (next_oid w < 2 ^ 96)%N →
  let w1 := set_docs name
              (docs_of name w ++ [mk_stored (mk_oid (next_oid w)) f])%list
              (bump_oid (tick_world w)) in
  get_document_by_id name (ObjectId_str (mk_oid (next_oid w))) w1
  = (inr (Some (<["_id" := VStr (ObjectId_str (mk_oid (next_oid w)))]> f)), w1).
Proof.
  intros Hup Hs Hb w1.
  assert (up w1) as Hup1.
  { unfold w1. rewrite (up_tick w Hup). by apply up_set_docs, up_bump. }
  rewrite get_document_by_id_run.
  destruct Hup1 as [[cs Hcs] Ho]. rewrite Hcs.
  rewrite ObjectId_of_str_str by done.
  assert (up w1) as Hup1 by (split; [by eexists|done]).
  rewrite (up_call_ok w1 Hup1), (up_tick w1 Hup1).
  unfold doc_by_id. unfold w1 at 1.
  rewrite docs_of_set_docs by (by destruct Hup).
  rewrite first_match_id_snoc by by apply fresh_id_not_stored.
  simpl. by rewrite stringify_to_dict.
Qed.

(** X10. Insert and read back.  In a store that is up and whose ids are
    sound, [create_document] on a dict without an [_id] whose integers fit
    BSON returns a well-formed id string, and [get_document_by_id] with
    that string then finds a document: it has the id string under [_id],
    it has a [created_at] and an [updated_at], and under every other key
    of the inserted dict it has the inserted value (datetimes apart, which
    the store does not keep exactly). *)
Theorem created_document_found (now : datetime) (name : string) (data : dict)
    (w : world) :
  up w → ids_sound w → (next_oid w < 2 ^ 96)%N →
  data !! "_id" = None → ints_fit data = true →
  ∃ (id : string) (w1 : world) (found : dict),
    create_document now name data w = (inr id, w1)
    ∧ ObjectId_is_valid id = true
    ∧ get_document_by_id name id w1 = (inr (Some found), w1)
    ∧ found !! "_id" = Some (VStr id)
    ∧ is_Some (found !! "created_at") ∧ is_Some (found !! "updated_at")
    ∧ ∀ k v, data !! k = Some v → is_date v = false →
             k ≠ "created_at" → k ≠ "updated_at" → found !! k = Some v.
Proof.
  intros Hup Hs Hb Hid _. rewrite create_document_run.
  destruct (proj1 Hup) as [cs Hcs]. rewrite Hcs, (up_call_ok w Hup).
  eexists _, _, _. split; [done|]. split; [apply ObjectId_str_valid|].
  split; [by apply inserted_found|].
  split; [by rewrite lookup_insert_eq|].
  split; [by rewrite lookup_insert_ne, lookup_insert_ne, lookup_insert_eq|].
  split; [by rewrite lookup_insert_ne, lookup_insert_eq|].
  intros k v Hk _ H1 H2.
  rewrite !lookup_insert_ne; [done|done|done|]. intros <-. congruence.
Qed.

Lemma created_document_found_witness :
  ∃ (id : string) (w1 : world) (found : dict),
    create_document clock0 "doctor" (Doctor_dump doctor_rec1) empty_world
    = (inr id, w1)
    ∧ ObjectId_is_valid id = true
    ∧ get_document_by_id "doctor" id w1 = (inr (Some found), w1)
    ∧ found !! "_id" = Some (VStr id)
    ∧ is_Some (found !! "created_at") ∧ is_Some (found !! "updated_at")
    ∧ ∀ k v, Doctor_dump doctor_rec1 !! k = Some v → is_date v = false →
             k ≠ "created_at" → k ≠ "updated_at" → found !! k = Some v.
Proof.
  apply (created_document_found clock0 "doctor" (Doctor_dump doctor_rec1)
           empty_world).
  - exact up_empty_world.
  - exact ids_sound_empty_world.
  - vm_compute. reflexivity.
  - vm_compute. reflexivity.
  - vm_compute. reflexivity.
Defined.

(** X11. Looking up what is not there.  With a configured database,
    [get_document_by_id] returns [None] for a malformed id without a call
    to the server, so also when the connection is lost, and leaves the
    world as it is; in a store that is up it returns [None] for a
    well-formed id that no document of the collection has.  Without a
    configured database it raises, whatever the id. *)
Theorem get_document_by_id_misses (name s : string) (w : world) :
  (is_Some (db w) → ObjectId_is_valid s = false →
   get_document_by_id name s w = (inr None, w))
  ∧ (∀ i, up w → ObjectId_of_str s = Some i →
          i ∉ doc_id <$> docs_of name w →
          get_document_by_id name s w = (inr None, w))
  ∧ (db w = None → ∃ e, get_document_by_id name s w = (inl e, w)).
Proof.
  rewrite get_document_by_id_run. split; [|split].
  - intros [cs ->] Hv. by rewrite ObjectId_of_str_invalid.
  - intros i Hup Hi Hni. destruct (proj1 Hup) as [cs Hcs].
    rewrite Hcs, Hi, (up_call_ok w Hup), (up_tick w Hup).
    unfold doc_by_id. by rewrite first_match_id_None.
  - intros ->. eauto.
Qed.

Lemma get_document_by_id_misses_witness :
  get_document_by_id "appuser" "not-an-id" (mk_world (Some ∅) 0 (Some 0%nat))
  = (inr None, mk_world (Some ∅) 0 (Some 0%nat))
  ∧ get_document_by_id "appuser" doctor1 empty_world = (inr None, empty_world)
  ∧ ∃ e, get_document_by_id "appuser" doctor1 (mk_world None 0 None)
         = (inl e, mk_world None 0 None).
Proof.
  split; [|split].
  - apply (get_document_by_id_misses "appuser" "not-an-id"
             (mk_world (Some ∅) 0 (Some 0%nat))); [by eexists|].
    vm_compute. reflexivity.
  - destruct (get_document_by_id_misses "appuser" doctor1 empty_world)
      as (_ & H & _).
    apply (H (mk_oid 31682451968623593102782286288%N)).
    + exact up_empty_world.
    + vm_compute. reflexivity.
    + vm_compute. apply not_elem_of_nil.
  - apply (get_document_by_id_misses "appuser" doctor1 (mk_world None 0 None)).
    reflexivity.
Defined.

Lemma filter_query_empty (c : collection) :
  filter (λ d, query_matches ∅ d = true) c = c.
Proof.
  induction c as [|x c IH]; [done|]. rewrite filter_cons.
  rewrite decide_True by apply query_matches_empty. by rewrite IH.
Qed.

(** X12. Limits and empty filters of [get_documents].  In a store that is
    up the call never changes the world.  No limit and limit 0 give the
    same rows; a limit n above 0 gives the first n of them.  No filter and
    the empty filter give every document of the collection, in the
    collection's order, each with its id as a string; no result has more
    rows than the collection has documents. *)
Theorem get_documents_limits (name : string) (filter_dict : option dict)
    (n : N) (w : world) :
  up w →
  ∃ rows,
    get_documents name filter_dict None w = (inr rows, w)
    ∧ get_documents name filter_dict (Some 0%N) w = (inr rows, w)
    ∧ (n ≠ 0%N →
       get_documents name filter_dict (Some n) w
       = (inr (take (N.to_nat n) rows), w))
    ∧ (List.length rows ≤ List.length (docs_of name w))%nat
    ∧ (filter_dict = None ∨ filter_dict = Some ∅ →
       rows = stringify_id ∘ to_dict <$> docs_of name w).
Proof.
  intros Hup. rewrite !get_documents_run.
  destruct (proj1 Hup) as [cs Hcs]. rewrite Hcs, (up_call_ok w Hup).
  rewrite (up_tick w Hup). cbv zeta.
  eexists. split; [done|]. split; [done|]. split; [|split].
  - intros Hn. unfold int_truthy.
    rewrite (proj2 (N.eqb_neq n 0) Hn). simpl. by rewrite fmap_take.
  - rewrite !length_fmap. apply length_filter.
  - intros [-> | ->].
    + by rewrite filter_query_empty, list_fmap_compose.
    + unfold dict_truthy. rewrite bool_decide_eq_true_2 by done. simpl.
      by rewrite filter_query_empty, list_fmap_compose.
Qed.

Lemma get_documents_limits_witness :
  let w := after_all [CreateUser clock0 user1; CreateUser clock0 user2]
             empty_world in
  ∃ rows,
    get_documents "appuser" None None w = (inr rows, w)
    ∧ get_documents "appuser" None (Some 0%N) w = (inr rows, w)
    ∧ (1%N ≠ 0%N →
       get_documents "appuser" None (Some 1%N) w
       = (inr (take (N.to_nat 1) rows), w))
    ∧ (List.length rows ≤ List.length (docs_of "appuser" w))%nat
    ∧ (@None dict = None ∨ @None dict = Some ∅ →
       rows = stringify_id ∘ to_dict <$> docs_of "appuser" w).
Proof.
  apply (get_documents_limits "appuser" None 1%N
           (after_all [CreateUser clock0 user1; CreateUser clock0 user2]
              empty_world)).
  split; [by eexists|]. vm_compute. reflexivity.
Defined.

(** ** Properties of the karma endpoint *)

Section karma.
Implicit Types (w : world) (p : KarmaAward) (i j : ObjectId) (n : Z).

Lemma is_hex_value (c : ascii) : is_hex c = true → is_Some (hex_value c).
Proof.
  destruct c as [[] [] [] [] [] [] [] []]; vm_compute; by eauto.
Qed.

Lemma hex_parse_all_hex (s : string) (a : N) :
  all_hex s = true → is_Some (hex_parse s a).
Proof.
  revert a. induction s as [|c s IH]; intros a; simpl; [eauto|].
  intros [Hc Hs]%andb_prop. destruct (is_hex_value c Hc) as [v ->]. by apply IH.
Qed.

(** A well-formed id string always reads as an id. *)
Lemma ObjectId_of_str_is_Some (s : string) :
  ObjectId_is_valid s = true → is_Some (ObjectId_of_str s).
Proof.
  intros Hv. unfold ObjectId_of_str. rewrite Hv.
  unfold ObjectId_is_valid in Hv. apply andb_prop in Hv as [_ Hh].
  destruct (hex_parse_all_hex s 0 Hh) as [v ->]. simpl. eauto.
Qed.

Lemma karma_of_inv w i n :
  karma_of w i = Some n →
  ∃ d, doc_by_id "appuser" i w = Some d
       ∧ doc_fields d !! "karma_points" = Some (VInt n).
Proof.
  unfold karma_of, int_field.
  destruct (doc_by_id "appuser" i w) as [d|]; simpl; [|done].
  destruct (doc_fields d !! "karma_points") as [[]|] eqn:E; try done.
  intros [= ->]. eauto.
Qed.

(** An award that goes through: what it answers and what it changes. *)
Lemma award_karma_goes_through p w i n :
  up w →
  ObjectId_of_str (ka_user_id p) = Some i →
  karma_of w i = Some n →
  int64_ok (ka_points p) = true →
  int64_ok (n + ka_points p) = true →
  ∃ w', award_karma p w = (inr {["status" := VStr "ok"]}, w')
    ∧ up w'
    ∧ karma_of w' i = Some (n + ka_points p)
    ∧ (∀ j, j ≠ i → doc_by_id "appuser" j w' = doc_by_id "appuser" j w)
    ∧ (∀ field : string, field ≠ "karma_points" →
         (doc_by_id "appuser" i w' ≫= λ d, doc_fields d !! field)
         = (doc_by_id "appuser" i w ≫= λ d, doc_fields d !! field))
    ∧ (∀ name : string, name ≠ "appuser" → docs_of name w' = docs_of name w)
    ∧ doc_id <$> docs_of "appuser" w' = doc_id <$> docs_of "appuser" w.
Proof.
  intros Hup Hi Hn Hp Hnp.
  destruct (karma_of_inv w i n Hn) as (d & Hd & Hk).
  rewrite award_karma_run, Hi. destruct (proj1 Hup) as [cs Hcs].
  rewrite Hcs, Hp, (up_call_ok w Hup), (up_tick w Hup). cbv zeta.
  rewrite Hd, Hk, Hnp.
  destruct (set_first_id i {["karma_points" := VInt (n + ka_points p)]} _ d Hd)
    as (c' & -> & H1 & H2 & H3). simpl.
  assert (is_Some (db w)) as Hdb by eauto.
  eexists. split; [done|]. split; [by apply up_set_docs|].
  unfold karma_of, doc_by_id. rewrite !docs_of_set_docs by done.
  split; [|split; [|split; [|split]]].
  - rewrite H1. simpl. unfold int_field. simpl.
    by rewrite (lookup_union_Some_l _ _ "karma_points"
                  (VInt (n + ka_points p))).
  - exact H2.
  - intros field Hf. rewrite H1. simpl.
    rewrite lookup_union_r; [done|]. by rewrite lookup_singleton_ne.
  - intros name Hname. by rewrite docs_of_set_docs_ne.
  - exact H3.
Qed.
End karma.

(** X13. Awards that are turned away.  An award whose user id is
    malformed is answered 400, in any world; an award of points that do
    not fit eight bytes is answered 500, in any world; and in a store that
    is up an award for a well-formed id that no user has is answered 404.
    In each case the world is left exactly as it was. *)
Theorem award_karma_rejections (p : KarmaAward) (w : world) :
  (ObjectId_is_valid (ka_user_id p) = false →
   serve (award_karma p) w = (ErrorResponse 400 "Invalid user id", w))
  ∧ (ObjectId_is_valid (ka_user_id p) = true →
     int64_ok (ka_points p) = false →
     serve (award_karma p) w = (ErrorResponse 500 "Internal Server Error", w))
  ∧ (∀ i, up w → ObjectId_of_str (ka_user_id p) = Some i →
          int64_ok (ka_points p) = true →
          i ∉ doc_id <$> docs_of "appuser" w →
          serve (award_karma p) w = (ErrorResponse 404 "User not found", w)).
Proof.
  unfold serve. rewrite award_karma_run. split; [|split].
  - intros Hv. by rewrite ObjectId_of_str_invalid.
  - intros Hv Hp. destruct (ObjectId_of_str_is_Some _ Hv) as [i ->].
    rewrite Hp. by destruct (db w).
  - intros i Hup Hi Hp Hni. rewrite Hi. destruct (proj1 Hup) as [cs Hcs].
    rewrite Hcs, Hp, (up_call_ok w Hup), (up_tick w Hup). cbv zeta.
    unfold doc_by_id. by rewrite first_match_id_None.
Qed.

Lemma award_karma_rejections_witness :
  let w := after_all [CreateUser clock0 user1] empty_world in
  serve (award_karma (mk_KarmaAward "u1" 5)) w
  = (ErrorResponse 400 "Invalid user id", w)
  ∧ serve (award_karma (mk_KarmaAward "000000000000000000000000" (2 ^ 63))) w
    = (ErrorResponse 500 "Internal Server Error", w)
  ∧ serve (award_karma (mk_KarmaAward "000000000000000000000007" 5)) w
    = (ErrorResponse 404 "User not found", w).
Proof.
  split; [|split].
  - apply (award_karma_rejections (mk_KarmaAward "u1" 5)
             (after_all [CreateUser clock0 user1] empty_world)).
    vm_compute. reflexivity.
  - apply (award_karma_rejections
             (mk_KarmaAward "000000000000000000000000" (2 ^ 63))
             (after_all [CreateUser clock0 user1] empty_world));
      vm_compute; reflexivity.
  - destruct (award_karma_rejections
                (mk_KarmaAward "000000000000000000000007" 5)
                (after_all [CreateUser clock0 user1] empty_world))
      as (_ & _ & H).
    apply (H (mk_oid 7)).
    + split; [by eexists|]. vm_compute. reflexivity.
    + vm_compute. reflexivity.
    + vm_compute. reflexivity.
    + change (mk_oid 7 ∉ [mk_oid 0]). rewrite list_elem_of_singleton.
      discriminate.
Defined.

(** X14. An award adds its points.  In a store that is up, for a user
    whose stored karma is the integer n and an id string that reads as the
    user's id, in either case of its letters: an award of p points, with p
    and n + p within eight bytes, is answered 200 and the user's karma
    becomes n + p.  Every other field of the user, every other user and
    every other collection is as before, and no document is added or
    removed. *)
Theorem award_karma_adds (p : KarmaAward) (w : world) (i : ObjectId) (n : Z) :
  up w →
  ObjectId_of_str (ka_user_id p) = Some i →
  karma_of w i = Some n →
  int64_ok (ka_points p) = true →
  int64_ok (n + ka_points p) = true →
  ∃ w', serve (award_karma p) w = (Response 200 {["status" := VStr "ok"]}, w')
    ∧ karma_of w' i = Some (n + ka_points p)
    ∧ (∀ j, j ≠ i → doc_by_id "appuser" j w' = doc_by_id "appuser" j w)
    ∧ (∀ field : string, field ≠ "karma_points" →
         (doc_by_id "appuser" i w' ≫= λ d, doc_fields d !! field)
         = (doc_by_id "appuser" i w ≫= λ d, doc_fields d !! field))
    ∧ (∀ name : string, name ≠ "appuser" → docs_of name w' = docs_of name w)
    ∧ doc_id <$> docs_of "appuser" w' = doc_id <$> docs_of "appuser" w.
Proof.
  intros Hup Hi Hn Hp Hnp.
  destruct (award_karma_goes_through p w i n Hup Hi Hn Hp Hnp)
    as (w' & Hr & _ & H).
  exists w'. unfold serve. by rewrite Hr.
Qed.

Lemma award_karma_adds_witness :
  let w := after_all [CreateUser clock0 user1] (mk_world (Some ∅) 10 None) in
  let p := mk_KarmaAward "00000000000000000000000A" 10 in
  karma_of w (mk_oid 10) = Some 5
  ∧ ∃ w', serve (award_karma p) w = (Response 200 {["status" := VStr "ok"]}, w')
          ∧ karma_of w' (mk_oid 10) = Some 15.
Proof.
  split; [vm_compute; reflexivity|].
  destruct (award_karma_adds (mk_KarmaAward "00000000000000000000000A" 10)
              (after_all [CreateUser clock0 user1] (mk_world (Some ∅) 10 None))
              (mk_oid 10) 5) as (w' & H1 & H2 & _).
  - split; [by eexists|reflexivity].
  - vm_compute. reflexivity.
  - vm_compute. reflexivity.
  - vm_compute. reflexivity.
  - vm_compute. reflexivity.
  - exists w'. split; [exact H1|exact H2].
Defined.

Lemma after_all_cons (c : call) (cs : list call) (w : world) :
  after_all (c :: cs) w = after_all cs (after c w).
Proof. reflexivity. Qed.

Lemma awards_add_up (id : string) (i : ObjectId) (ps : list Z) :
  ObjectId_of_str id = Some i →
  ∀ w n,
    up w → karma_of w i = Some n → sums_fit n ps = true →
    let w' := after_all ((λ p, AwardKarma (mk_KarmaAward id p)) <$> ps) w in
    up w' ∧ karma_of w' i = Some (n + foldr Z.add 0 ps).
Proof.
  intros Hi. induction ps as [|p ps IH]; intros w n Hup Hn Hfit.
  - simpl. split; [done|]. rewrite Hn. f_equal. lia.
  - simpl in Hfit. apply andb_prop in Hfit as [[Hp Hnp]%andb_prop Hfit].
    cbv zeta. rewrite fmap_cons, after_all_cons. simpl after.
    destruct (award_karma_goes_through (mk_KarmaAward id p) w i n
                Hup Hi Hn Hp Hnp) as (w1 & -> & Hup1 & Hk & _).
    simpl. destruct (IH w1 (n + p) Hup1 Hk Hfit) as [H1 H2].
    split; [done|]. rewrite H2. f_equal. lia.
Qed.

(** X15. Karma adds up from the first day.  In a store that is up and
    whose ids are sound, a user created with karma k and then awarded
    p1, ..., pm under the id that [create_user] answered holds
    k + p1 + ... + pm, as long as every award and every partial sum fits
    eight bytes. *)
Theorem karma_adds_up (now : datetime) (u : AppUser) (ps : list Z) (w : world) :
  up w → ids_sound w → (next_oid w < 2 ^ 96)%N →
  ints_fit (AppUser_dump u) = true →
  sums_fit (au_karma_points u) ps = true →
  ∃ (id : string) (w1 : world),
    create_user now u w = (inr {["id" := VStr id]}, w1)
    ∧ ObjectId_of_str id = Some (mk_oid (next_oid w))
    ∧ karma_of w1 (mk_oid (next_oid w)) = Some (au_karma_points u)
    ∧ karma_of
        (after_all ((λ p, AwardKarma (mk_KarmaAward id p)) <$> ps) w1)
        (mk_oid (next_oid w))
      = Some (au_karma_points u + foldr Z.add 0 ps).
Proof.
  intros Hup Hs Hb _ Hfit. rewrite create_user_run.
  destruct (proj1 Hup) as [cs Hcs]. rewrite Hcs, (up_call_ok w Hup).
  rewrite (up_tick w Hup).
  eexists _, _. split; [done|].
  assert (ObjectId_of_str (ObjectId_str (mk_oid (next_oid w)))
          = Some (mk_oid (next_oid w))) as Hi
    by by apply ObjectId_of_str_str.
  split; [done|].
  set (w1 := set_docs "appuser" _ (bump_oid w)).
  assert (up w1) as Hup1 by by apply up_set_docs, up_bump.
  assert (karma_of w1 (mk_oid (next_oid w)) = Some (au_karma_points u)) as Hk.
  { unfold karma_of, doc_by_id, w1.
    rewrite docs_of_set_docs by (by destruct Hup).
    rewrite first_match_id_snoc by by apply fresh_id_not_stored.
    reflexivity. }
  split; [done|].
  by apply (awards_add_up _ _ ps Hi w1 _ Hup1 Hk Hfit).
Qed.

Lemma karma_adds_up_witness :
  ∃ (id : string) (w1 : world),
    create_user clock0 user1 empty_world = (inr {["id" := VStr id]}, w1)
    ∧ ObjectId_of_str id = Some (mk_oid 0)
    ∧ karma_of w1 (mk_oid 0) = Some 5
    ∧ karma_of
        (after_all ((λ p, AwardKarma (mk_KarmaAward id p)) <$> [10; -3; 1]) w1)
        (mk_oid 0)
      = Some (5 + foldr Z.add 0 [10; -3; 1]).
Proof.
  apply (karma_adds_up clock0 user1 [10; -3; 1] empty_world).
  - exact up_empty_world.
  - exact ids_sound_empty_world.
  - vm_compute. reflexivity.
  - vm_compute. reflexivity.
  - vm_compute. reflexivity.
Defined.

(** ** Properties of the listing endpoints *)

Section listing.
Implicit Types (w : world) (d : stored) (a b : option string).

Lemma dict_truthy_or_empty (f : dict) : (if dict_truthy f then f else ∅) = f.
Proof. unfold dict_truthy. by case_bool_decide. Qed.

Lemma str_truthy_Some a :
  str_truthy a = true → ∃ s, a = Some s ∧ opt_str a = VStr s.
Proof. destruct a as [s|]; [eauto|done]. Qed.

(** The query the listing endpoints build from two optional strings
    selects by [has_str] on both. *)
Lemma two_filters_match (f1 f2 : string) a b d :
  f1 ≠ f2 → f1 ≠ "_id" → f2 ≠ "_id" →
  query_matches
    (if str_truthy b
     then <[f2 := opt_str b]>
            (if str_truthy a then <[f1 := opt_str a]> (∅ : dict) else ∅)
     else if str_truthy a then <[f1 := opt_str a]> (∅ : dict) else ∅) d
  = has_str f1 a d && has_str f2 b d.
Proof.
  intros H12 H1 H2. unfold has_str.
  destruct (str_truthy a) eqn:Ha; destruct (str_truthy b) eqn:Hb.
  - destruct (str_truthy_Some a Ha) as (s & _ & ->).
    destruct (str_truthy_Some b Hb) as (s' & _ & ->).
    rewrite query_matches_insert_str; [|by rewrite lookup_insert_ne|done].
    rewrite query_matches_insert_str by done.
    rewrite query_matches_empty. by rewrite andb_true_r, andb_comm.
  - destruct (str_truthy_Some a Ha) as (s & _ & ->).
    rewrite query_matches_insert_str by done.
    by rewrite query_matches_empty.
  - destruct (str_truthy_Some b Hb) as (s' & _ & ->).
    rewrite query_matches_insert_str by done.
    by rewrite query_matches_empty, andb_true_r.
  - apply query_matches_empty.
Qed.

Lemma two_filters_run (name f1 f2 : string) a b w :
  f1 ≠ f2 → f1 ≠ "_id" → f2 ≠ "_id" → up w →
  get_documents name
    (Some (if str_truthy b
           then <[f2 := opt_str b]>
                  (if str_truthy a then <[f1 := opt_str a]> (∅ : dict) else ∅)
           else if str_truthy a then <[f1 := opt_str a]> (∅ : dict) else ∅))
    None w
  = (inr (stringify_id ∘ to_dict
            <$> filter (λ d, has_str f1 a d && has_str f2 b d = true)
                  (docs_of name w)), w).
Proof.
  intros H12 H1 H2 Hup. rewrite get_documents_run.
  destruct (proj1 Hup) as [cs Hcs]. rewrite Hcs, (up_call_ok w Hup).
  rewrite (up_tick w Hup). cbv zeta. rewrite dict_truthy_or_empty.
  rewrite list_fmap_compose. do 4 f_equal.
  apply list_filter_iff. intros d. by rewrite two_filters_match.
Qed.

Lemma list_users_run a b w :
  up w →
  list_users a b w
  = (inr (stringify_id ∘ to_dict
            <$> filter (λ d, has_str "location" a d
                             && has_str "blood_group" b d = true)
                  (docs_of "appuser" w)), w).
Proof. intros Hup. unfold list_users. by apply two_filters_run. Qed.

Lemma list_doctors_run a b w :
  up w →
  list_doctors a b w
  = (inr (stringify_id ∘ to_dict
            <$> filter (λ d, has_str "hospital_id" a d
                             && has_str "department" b d = true)
                  (docs_of "doctor" w)), w).
Proof. intros Hup. unfold list_doctors. by apply two_filters_run. Qed.
End listing.

(** X16. What the listings select.  In a store that is up, GET /users
    returns, in insertion order and with ids as strings, exactly the
    stored users whose [location] is the given city and whose
    [blood_group] is the given group, where a parameter that is missing
    or the empty string selects everything; GET /doctors does the same
    with [hospital_id] and [department].  Neither changes the store. *)
Theorem listings_select (a b : option string) (w : world) :
  up w →
  list_users a b w
  = (inr (stringify_id ∘ to_dict
            <$> filter (λ d, has_str "location" a d
                             && has_str "blood_group" b d = true)
                  (docs_of "appuser" w)), w)
  ∧ list_doctors a b w
    = (inr (stringify_id ∘ to_dict
              <$> filter (λ d, has_str "hospital_id" a d
                               && has_str "department" b d = true)
                    (docs_of "doctor" w)), w)
  ∧ list_users (Some "") b w = list_users None b w
  ∧ list_users a (Some "") w = list_users a None w.
Proof.
  intros Hup. split; [by apply list_users_run|].
  split; [by apply list_doctors_run|]. by rewrite !list_users_run.
Qed.

Lemma listings_select_witness :
  let w := after_all [CreateUser clock0 user1; CreateUser clock0 user2]
             empty_world in
  ∃ row, (list_users (Some "Kathmandu") (Some "") w).1 = inr [row]
         ∧ row !! "name" = Some (VStr "Bikash").
Proof.
  cbv zeta.
  destruct (listings_select (Some "Kathmandu") (Some "")
              (after_all [CreateUser clock0 user1; CreateUser clock0 user2]
                 empty_world)) as (H & _).
  - split; [by eexists|reflexivity].
  - rewrite H. eexists. split; [vm_compute; reflexivity|].
    vm_compute. reflexivity.
Defined.

Lemma opt_str_eq_iff (x : option string) (a : option string) :
  str_truthy a = true → (Some (opt_str x) = Some (opt_str a) ↔ x = a).
Proof.
  intros Ha. destruct (str_truthy_Some a Ha) as (s & -> & _). simpl.
  split; [|by intros ->]. destruct x; simpl; congruence.
Qed.

(** X17. A created user is listed.  In a store that is up, after POST
    /users has answered with an id, GET /users with any city and blood
    group returns what it returned before and, when the parameters select
    the new user (each is missing, empty, or equal to the user's field),
    one more row at the end, which carries the answered id and every field
    of the user as posted. *)
Theorem created_user_is_listed (now : datetime) (u : AppUser)
    (city blood_group : option string) (w : world) :
  up w → ints_fit (AppUser_dump u) = true →
  let selected :=
    (if str_truthy city then bool_decide (au_location u = city) else true)
    && (if str_truthy blood_group
        then bool_decide (au_blood_group u = blood_group) else true) in
  ∃ (rows : list dict) (id : string) (w1 : world) (row : dict),
    list_users city blood_group w = (inr rows, w)
    ∧ create_user now u w = (inr {["id" := VStr id]}, w1)
    ∧ list_users city blood_group w1
      = (inr (rows ++ if selected then [row] else [])%list, w1)
    ∧ row !! "_id" = Some (VStr id)
    ∧ ∀ k v, AppUser_dump u !! k = Some v → row !! k = Some v.
Proof.
  intros Hup _ selected. rewrite (list_users_run city blood_group w Hup).
  rewrite create_user_run.
  destruct (proj1 Hup) as [cs Hcs]. rewrite Hcs, (up_call_ok w Hup).
  rewrite (up_tick w Hup).
  set (new := mk_stored (mk_oid (next_oid w))
                (<["updated_at" := VDate now]>
                   (<["created_at" := VDate now]> (AppUser_dump u)))).
  set (w1 := set_docs "appuser" _ (bump_oid w)).
  assert (up w1) as Hup1 by by apply up_set_docs, up_bump.
  exists (stringify_id ∘ to_dict
            <$> filter (λ d, has_str "location" city d
                             && has_str "blood_group" blood_group d = true)
                  (docs_of "appuser" w)),
    (ObjectId_str (mk_oid (next_oid w))), w1,
    (stringify_id (to_dict new)).
  split; [done|]. split; [done|]. split; [|split].
  - rewrite (list_users_run city blood_group w1 Hup1). do 2 f_equal.
    unfold w1. rewrite docs_of_set_docs by (by destruct Hup).
    rewrite filter_app, fmap_app. f_equal.
    rewrite filter_cons, filter_nil.
    assert (has_str "location" city new && has_str "blood_group" blood_group new
            = selected) as ->.
    { unfold selected, has_str. f_equal.
      - destruct (str_truthy city) eqn:E; [|done].
        apply bool_decide_ext. by apply opt_str_eq_iff.
      - destruct (str_truthy blood_group) eqn:E; [|done].
        apply bool_decide_ext. by apply opt_str_eq_iff. }
    by destruct selected.
  - rewrite stringify_to_dict. by rewrite lookup_insert_eq.
  - intros k v Hk. rewrite stringify_to_dict. unfold new. simpl.
    rewrite !lookup_insert_ne; [done| | |]; intros <-; by vm_compute in Hk.
Qed.

Lemma created_user_is_listed_witness :
  ∃ (rows : list dict) (id : string) (w1 : world) (row : dict),
    list_users (Some "Pokhara") None empty_world = (inr rows, empty_world)
    ∧ create_user clock0 user1 empty_world = (inr {["id" := VStr id]}, w1)
    ∧ list_users (Some "Pokhara") None w1 = (inr (rows ++ [row])%list, w1)
    ∧ row !! "_id" = Some (VStr id)
    ∧ ∀ k v, AppUser_dump user1 !! k = Some v → row !! k = Some v.
Proof.
  apply (created_user_is_listed clock0 user1 (Some "Pokhara") None empty_world).
  - exact up_empty_world.
  - vm_compute. reflexivity.
Defined.

(** X18. A doctor that was added can be booked.  In a store that is up,
    POST /doctors answers with an id that passes the doctor-id check of
    POST /bookings: a booking that names it, for a date without a feed,
    is answered with token 1. *)
Theorem added_doctor_can_be_booked (now now' : datetime) (d : Doctor)
    (b : Booking) (w : world) :
  up w → ints_fit (Doctor_dump d) = true →
  ∃ (id : string) (w1 : world),
    add_doctor now d w = (inr {["id" := VStr id]}, w1)
    ∧ ObjectId_is_valid id = true
    ∧ (doctor_id b = id → feed_at w (booking_key b) = None →
       response_token (serve (book_appointment now' b) w1).1 = Some 1).
Proof.
  intros Hup _. rewrite add_doctor_run.
  destruct (proj1 Hup) as [cs Hcs]. rewrite Hcs, (up_call_ok w Hup).
  rewrite (up_tick w Hup).
  set (w1 := set_docs "doctor" _ (bump_oid w)).
  assert (up w1) as Hup1 by by apply up_set_docs, up_bump.
  exists (ObjectId_str (mk_oid (next_oid w))), w1.
  split; [done|]. split; [apply ObjectId_str_valid|].
  intros Hd Habs.
  assert (feed_at w1 (booking_key b) = None) as Habs1.
  { unfold feed_at, w1. by rewrite docs_of_set_docs_ne. }
  rewrite (serve_book_appointment_up now' b w1 1 Hup1);
    [done|by rewrite Hd; apply ObjectId_str_valid|by apply next_token_absent].
Qed.

Lemma added_doctor_can_be_booked_witness :
  ∃ (id : string) (w1 : world),
    add_doctor clock0 doctor_rec1 empty_world = (inr {["id" := VStr id]}, w1)
    ∧ ObjectId_is_valid id = true
    ∧ response_token
        (serve (book_appointment clock0
                  (mk_Booking "u1" id june1_0900 None booked)) w1).1
      = Some 1.
Proof.
  destruct (added_doctor_can_be_booked clock0 clock0 doctor_rec1
              (mk_Booking "u1" "000000000000000000000000" june1_0900 None booked)
              empty_world) as (id & w1 & H1 & H2 & H3).
  - exact up_empty_world.
  - vm_compute. reflexivity.
  - exists id, w1. split; [exact H1|]. split; [exact H2|].
    assert (id = "000000000000000000000000") as ->
      by (vm_compute in H1; congruence).
    apply H3; vm_compute; reflexivity.
Defined.

Lemma next_oid_write_feed (b : Booking) (t : Z) (w : world) :
  (next_oid (write_feed b t w) ≤ next_oid w + 1)%N.
Proof.
  unfold write_feed. destruct (set_first _ _ _); simpl; lia.
Qed.

(** X19. A booking can be read back.  In a store that is up and whose
    ids are sound, the id that POST /bookings answers names the booking
    record: [get_document_by_id] on the booking collection finds a
    document with that id, the answered token, and the user, doctor and
    status of the request. *)
Theorem booking_can_be_read_back (now : datetime) (b : Booking) (w : world)
    (t : Z) :
  up w → ids_sound w → (next_oid w + 1 < 2 ^ 96)%N →
  ObjectId_is_valid (doctor_id b) = true →
  next_token_for w (booking_key b) = Some t →
  int64_ok t = true →
  ∃ (id : string) (w1 : world) (found : dict),
    serve (book_appointment now b) w
    = (Response 200 (<["id" := VStr id]> (<["token" := VInt t]> ∅)), w1)
    ∧ get_document_by_id "booking" id w1 = (inr (Some found), w1)
    ∧ found !! "_id" = Some (VStr id)
    ∧ found !! "token" = Some (VInt t)
    ∧ found !! "user_id" = Some (VStr (user_id b))
    ∧ found !! "doctor_id" = Some (VStr (doctor_id b))
    ∧ found !! "status" = Some (VStr (booking_status_str (status b))).
Proof.
  intros Hup Hs Hb Hv Ht _.
  rewrite (serve_book_appointment_up now b w t Hup Hv Ht).
  set (w2 := write_feed b t w).
  assert (up w2) as Hup2 by by apply up_write_feed.
  assert (ids_sound w2) as Hs2 by by apply ids_sound_write_feed.
  assert (next_oid w2 < 2 ^ 96)%N as Hb2
    by (pose proof (next_oid_write_feed b t w); unfold w2; lia).
  eexists _, _, _. split; [done|].
  split; [exact (inserted_found "booking" (booking_record now b t) w2
                   Hup2 Hs2 Hb2)|].
  rewrite lookup_insert_eq. by repeat split.
Qed.

Lemma booking_can_be_read_back_witness :
  ∃ (id : string) (w1 : world) (found : dict),
    serve (book_appointment clock0 booking2) empty_world
    = (Response 200 (<["id" := VStr id]> (<["token" := VInt 1]> ∅)), w1)
    ∧ get_document_by_id "booking" id w1 = (inr (Some found), w1)
    ∧ found !! "_id" = Some (VStr id)
    ∧ found !! "token" = Some (VInt 1)
    ∧ found !! "user_id" = Some (VStr (user_id booking2))
    ∧ found !! "doctor_id" = Some (VStr (doctor_id booking2))
    ∧ found !! "status" = Some (VStr (booking_status_str (status booking2))).
Proof.
  apply (booking_can_be_read_back clock0 booking2 empty_world 1).
  - exact up_empty_world.
  - exact ids_sound_empty_world.
  - vm_compute. reflexivity.
  - vm_compute. reflexivity.
  - vm_compute. reflexivity.
  - vm_compute. reflexivity.
Defined.

Section blood.
Implicit Types (w : world) (d : stored) (a b c : option string).

Lemma add_filter_match (f : string) a (flt : dict) d :
  flt !! f = None → f ≠ "_id" →
  query_matches (if str_truthy a then <[f := opt_str a]> flt else flt) d
  = has_str f a d && query_matches flt d.
Proof.
  intros Hf Hid. unfold has_str. destruct (str_truthy a) eqn:Ha; [|done].
  destruct (str_truthy_Some a Ha) as (s & _ & ->).
  by rewrite query_matches_insert_str.
Qed.

Lemma create_blood_request_run now (r : BloodRequest) w :
  up w →
  create_blood_request now r w
  = (inr {["id" := VStr (ObjectId_str (mk_oid (next_oid w)))]},
     set_docs "bloodrequest"
       (docs_of "bloodrequest" w
          ++ [mk_stored (mk_oid (next_oid w))
                (<["updated_at" := VDate now]>
                   (<["created_at" := VDate now]> (BloodRequest_dump r)))])
       (bump_oid w)).
Proof.
  intros Hup. unfold create_blood_request, bind. rewrite create_document_run.
  destruct (proj1 Hup) as [cs Hcs].
  by rewrite Hcs, (up_call_ok w Hup), (up_tick w Hup).
Qed.

Lemma list_blood_requests_run a b c w :
  up w →
  list_blood_requests a b c w
  = (inr (stringify_id ∘ to_dict
            <$> filter (λ d, has_str "location" a d
                             && has_str "blood_group" b d
                             && has_str "status" c d = true)
                  (docs_of "bloodrequest" w)), w).
Proof.
  intros Hup. unfold list_blood_requests. rewrite get_documents_run.
  destruct (proj1 Hup) as [cs Hcs]. rewrite Hcs, (up_call_ok w Hup).
  rewrite (up_tick w Hup). cbv zeta. rewrite dict_truthy_or_empty.
  rewrite list_fmap_compose. do 4 f_equal.
  apply list_filter_iff. intros d.
  rewrite add_filter_match;
    [|by destruct (str_truthy a), (str_truthy b)|done].
  rewrite add_filter_match; [|by destruct (str_truthy a)|done].
  rewrite add_filter_match by done. rewrite query_matches_empty.
  rewrite andb_true_r.
  by destruct (has_str "location" a d), (has_str "blood_group" b d),
    (has_str "status" c d).
Qed.
End blood.

(** X20. The blood-request board.  In a store that is up, GET
    /blood/requests returns, in insertion order, exactly the stored
    requests that pass all three of city, blood group and status, where a
    parameter that is missing or empty passes everything, and changes
    nothing.  After POST /blood/requests the board filtered by the new
    request's own city, group and status shows the same rows as before
    and the new request last. *)
Theorem blood_board (now : datetime) (r : BloodRequest)
    (a b c : option string) (w : world) :
  up w → ints_fit (BloodRequest_dump r) = true →
  list_blood_requests a b c w
  = (inr (stringify_id ∘ to_dict
            <$> filter (λ d, has_str "location" a d
                             && has_str "blood_group" b d
                             && has_str "status" c d = true)
                  (docs_of "bloodrequest" w)), w)
  ∧ ∃ (rows : list dict) (id : string) (w1 : world) (row : dict),
      list_blood_requests (Some (br_location r)) (Some (br_blood_group r))
        (Some (request_status_str (br_status r))) w = (inr rows, w)
      ∧ create_blood_request now r w = (inr {["id" := VStr id]}, w1)
      ∧ list_blood_requests (Some (br_location r)) (Some (br_blood_group r))
          (Some (request_status_str (br_status r))) w1
        = (inr (rows ++ [row])%list, w1)
      ∧ row !! "_id" = Some (VStr id)
      ∧ ∀ k v, BloodRequest_dump r !! k = Some v → row !! k = Some v.
Proof.
  intros Hup _. split; [by apply list_blood_requests_run|].
  rewrite (create_blood_request_run now r w Hup).
  set (new := mk_stored (mk_oid (next_oid w))
                (<["updated_at" := VDate now]>
                   (<["created_at" := VDate now]> (BloodRequest_dump r)))).
  set (w1 := set_docs "bloodrequest" _ (bump_oid w)).
  assert (up w1) as Hup1 by by apply up_set_docs, up_bump.
  eexists _, _, w1, (stringify_id (to_dict new)).
  split; [by apply list_blood_requests_run|]. split; [done|].
  split; [|split].
  - rewrite (list_blood_requests_run _ _ _ w1 Hup1). do 2 f_equal.
    unfold w1. rewrite docs_of_set_docs by (by destruct Hup).
    rewrite filter_app, fmap_app. f_equal.
    rewrite filter_cons, filter_nil.
    rewrite decide_True; [done|].
    unfold has_str, str_truthy. simpl.
    repeat case_bool_decide; simpl; try done;
      rewrite ?bool_decide_eq_true_2; done.
  - rewrite stringify_to_dict. by rewrite lookup_insert_eq.
  - intros k v Hk. rewrite stringify_to_dict. unfold new. simpl.
    rewrite !lookup_insert_ne; [done| | |]; intros <-; by vm_compute in Hk.
Qed.

Lemma blood_board_witness :
  ∃ (rows : list dict) (id : string) (w1 : world) (row : dict),
    list_blood_requests (Some "Pokhara") (Some "O+") (Some "open")
      (create_blood_request clock0 request2 empty_world).2
    = (inr rows, (create_blood_request clock0 request2 empty_world).2)
    ∧ create_blood_request clock0 request1
        (create_blood_request clock0 request2 empty_world).2
      = (inr {["id" := VStr id]}, w1)
    ∧ list_blood_requests (Some "Pokhara") (Some "O+") (Some "open") w1
      = (inr (rows ++ [row])%list, w1)
    ∧ row !! "_id" = Some (VStr id)
    ∧ ∀ k v, BloodRequest_dump request1 !! k = Some v → row !! k = Some v.
Proof.
  destruct (blood_board clock0 request1 None None None
              (create_blood_request clock0 request2 empty_world).2)
    as [_ H].
  - split; [by eexists|reflexivity].
  - vm_compute. reflexivity.
  - exact H.
Defined.
